(** * Insurance-Claim-System: local persistence and file-reference layer

    A shallow embedding of the page script (js/app.js: [IDBHelper],
    [AppState], [DataStorage], [FileHandler] and the page's message handler)
    and of the service worker (sw.js), followed by the properties of the
    persistence layer that the specification states.

    Conventions of the embedding.
    - A JavaScript string is a [string]: a sequence of code units below 256.
    - A property that may be [undefined] is an [option]; [JSON.stringify]
      omits such a property and reading it back yields [undefined] again.
    - The text kept in [localStorage] is represented by the value
      [JSON.parse] yields on it ([Stored]); [JSON.parse] inverts
      [JSON.stringify] on the snapshots written here (strings, booleans,
      integers, arrays and plain objects).
    - What the platform decides (the clock, [Math.random], whether a storage
      write or an IndexedDB transaction succeeds, the result of reading a
      file) is an explicit argument of the operation that asks for it.
    - An [async] function is taken to run to completion without another
      handler running between its [await]s.
    - The DOM (form fill-in, file list, step display) is not modelled, except
      for the notifications of [showMessage] and the downloads triggered by
      clicking a link, which are logged in order. *)

From Stdlib Require Import ZArith NArith Ascii String List Bool Lia.
From stdpp Require Import base option list strings gmap fin_maps pretty.

Open Scope string_scope.
Open Scope list_scope.
Open Scope Z_scope.

(** ** Platform functions used by the script *)

(** [String.prototype.split] with a one-character separator. *)
Fixpoint split_aux (sep : ascii) (cur : list ascii) (s : list ascii) : list string :=
  match s with
  | [] => [string_of_list_ascii (rev cur)]
  | c :: r =>
      if Ascii.eqb c sep
      then string_of_list_ascii (rev cur) :: split_aux sep [] r
      else split_aux sep (c :: cur) r
  end.

Definition split (sep : ascii) (s : string) : list string :=
  split_aux sep [] (list_ascii_of_string s).

(** ASCII whitespace, as stripped by the forgiving base64 decoder. *)
Definition is_ascii_whitespace (c : ascii) : bool :=
  let n := N_of_ascii c in
  ((n =? 9) || (n =? 10) || (n =? 12) || (n =? 13) || (n =? 32))%N.

(** The value of a character of the base64 alphabet. *)
Definition b64_value (c : ascii) : option N :=
  let n := N_of_ascii c in
  (if (65 <=? n) && (n <=? 90) then Some (n - 65)
   else if (97 <=? n) && (n <=? 122) then Some (n - 71)
   else if (48 <=? n) && (n <=? 57) then Some (n + 4)
   else if n =? 43 then Some 62
   else if n =? 47 then Some 63
   else None)%N.

Fixpoint b64_values (l : list ascii) : option (list N) :=
  match l with
  | [] => Some []
  | c :: r =>
      match b64_value c, b64_values r with
      | Some v, Some vs => Some (v :: vs)
      | _, _ => None
      end
  end.

Definition byte_at (n : N) (shift : N) : ascii :=
  ascii_of_N (N.land (N.shiftr n shift) 255).

(** Groups of four sextets give three bytes; a trailing group of three gives
    two bytes and one of two gives one byte (the spare bits are dropped). *)
Fixpoint b64_bytes (v : list N) : list ascii :=
  match v with
  | a :: b :: c :: d :: r =>
      let n := N.lor (N.shiftl a 18) (N.lor (N.shiftl b 12) (N.lor (N.shiftl c 6) d)) in
      byte_at n 16 :: byte_at n 8 :: byte_at n 0 :: b64_bytes r
  | [a; b; c] =>
      let n := N.shiftr (N.lor (N.shiftl a 12) (N.lor (N.shiftl b 6) c)) 2 in
      [byte_at n 8; byte_at n 0]
  | [a; b] =>
      let n := N.shiftr (N.lor (N.shiftl a 6) b) 4 in
      [byte_at n 0]
  | _ => []
  end.

Definition strip_last_eq (l : list ascii) : list ascii :=
  match rev l with
  | c :: r => if Ascii.eqb c "=" then rev r else l
  | [] => l
  end.

(** [atob]: [None] stands for the [InvalidCharacterError] it throws. *)
Definition atob (s : string) : option string :=
  let l := filter (fun c => is_ascii_whitespace c = false) (list_ascii_of_string s) in
  let l := if (length l mod 4 =? 0)%nat then strip_last_eq (strip_last_eq l) else l in
  if (length l mod 4 =? 1)%nat then None
  else match b64_values l with
       | Some v => Some (string_of_list_ascii (b64_bytes v))
       | None => None
       end.

(** An argument that is [undefined] is first converted to a string. *)
Definition atob_arg (a : option string) : option string :=
  atob (default "undefined" a).

(** [byteNumbers[i] = byteCharacters.charCodeAt(i)] for every [i]. *)
Definition charCodes (s : string) : list N :=
  map N_of_ascii (list_ascii_of_string s).

(** The type that the [Blob] constructor keeps: the empty string when the
    given type has a character outside U+0020 to U+007E, and the given type
    in ASCII lower case otherwise. *)
Definition is_printable (c : ascii) : bool :=
  let n := N_of_ascii c in ((32 <=? n) && (n <=? 126))%N.

Definition to_lower (c : ascii) : ascii :=
  let n := N_of_ascii c in
  if ((65 <=? n) && (n <=? 90))%N then ascii_of_N (n + 32) else c.

Definition normalizeType (type : string) : string :=
  let l := list_ascii_of_string type in
  if forallb is_printable l then string_of_list_ascii (map to_lower l) else "".

(** ** Data model *)

(** A form answer: text or a checkbox state. *)
Inductive FormValue :=
| FStr (s : string)
| FBool (b : bool).

(** An entry of [AppState.uploadedFiles].  [file_id] is the reference into
    IndexedDB, [file_data] the inline data URL of the legacy form. *)
Record FileInfo := {
  file_id : option string;
  file_name : string;
  file_size : Z;
  file_type : string;
  file_data : option string
}.

Record AppStateT := {
  currentStep : Z;
  formData : gmap string FormValue;
  uploadedFiles : list FileInfo
}.

Definition maxSteps : Z := 3.

(** The object stored under [storageKey], as [JSON.parse] returns it. *)
Record Snapshot := {
  snap_formData : option (gmap string FormValue);
  snap_uploadedFiles : option (list FileInfo);
  snap_timestamp : option string
}.

(** The text under [storageKey].  [Unparsable] is text on which the load
    stops with an exception: [JSON.parse] throws on it, or yields [null],
    whose properties cannot be read.  [Parsed d] is any other text, [d]
    holding the three properties read from the parsed value; a number, a
    boolean, a string or an array has none of them.  Properties holding
    values of other kinds than [saveToStorage] writes are not modelled. *)
Inductive Stored :=
| Unparsable
| Parsed (d : Snapshot).

(** A [Blob]: its bytes and its type. *)
Record Blob := {
  blob_bytes : list N;
  blob_type : string
}.

Inductive MessageType := info | success | error.

(** A notification shown by [showMessage]. *)
Record Message := {
  msg_text : string;
  msg_type : MessageType
}.

(** A download triggered by clicking a link with a [download] attribute. *)
Record Download := {
  dl_name : string;
  dl_blob : Blob
}.

(** The page: the global [AppState], the fields of the [DataStorage]
    instance, the two durable stores, and the log of what the user is shown
    and sent. *)
Record Page := {
  AppState : AppStateT;
  isSubmitted : bool;
  autoSaveInterval : bool;
  localStorage : option Stored;
  idb : gmap string Blob;
  messages : list Message;
  downloads : list Download
}.

Definition storageKey : string := "insurance-claim-data".

Definition with_AppState (a : AppStateT) (p : Page) : Page :=
  {| AppState := a; isSubmitted := isSubmitted p;
     autoSaveInterval := autoSaveInterval p; localStorage := localStorage p;
     idb := idb p; messages := messages p; downloads := downloads p |}.

Definition with_formData (m : gmap string FormValue) (p : Page) : Page :=
  with_AppState {| currentStep := currentStep (AppState p); formData := m;
                   uploadedFiles := uploadedFiles (AppState p) |} p.

Definition with_uploadedFiles (l : list FileInfo) (p : Page) : Page :=
  with_AppState {| currentStep := currentStep (AppState p);
                   formData := formData (AppState p); uploadedFiles := l |} p.

Definition with_currentStep (n : Z) (p : Page) : Page :=
  with_AppState {| currentStep := n; formData := formData (AppState p);
                   uploadedFiles := uploadedFiles (AppState p) |} p.

Definition with_isSubmitted (b : bool) (p : Page) : Page :=
  {| AppState := AppState p; isSubmitted := b;
     autoSaveInterval := autoSaveInterval p; localStorage := localStorage p;
     idb := idb p; messages := messages p; downloads := downloads p |}.

Definition with_autoSaveInterval (b : bool) (p : Page) : Page :=
  {| AppState := AppState p; isSubmitted := isSubmitted p;
     autoSaveInterval := b; localStorage := localStorage p;
     idb := idb p; messages := messages p; downloads := downloads p |}.

Definition with_localStorage (s : option Stored) (p : Page) : Page :=
  {| AppState := AppState p; isSubmitted := isSubmitted p;
     autoSaveInterval := autoSaveInterval p; localStorage := s;
     idb := idb p; messages := messages p; downloads := downloads p |}.

Definition with_idb (d : gmap string Blob) (p : Page) : Page :=
  {| AppState := AppState p; isSubmitted := isSubmitted p;
     autoSaveInterval := autoSaveInterval p; localStorage := localStorage p;
     idb := d; messages := messages p; downloads := downloads p |}.

Definition with_messages (l : list Message) (p : Page) : Page :=
  {| AppState := AppState p; isSubmitted := isSubmitted p;
     autoSaveInterval := autoSaveInterval p; localStorage := localStorage p;
     idb := idb p; messages := l; downloads := downloads p |}.

Definition with_downloads (l : list Download) (p : Page) : Page :=
  {| AppState := AppState p; isSubmitted := isSubmitted p;
     autoSaveInterval := autoSaveInterval p; localStorage := localStorage p;
     idb := idb p; messages := messages p; downloads := l |}.

(** ** DataStorage *)

(** [showMessage]: the notification is appended to the log. *)
Definition showMessage (message : string) (t : MessageType) (p : Page) : Page :=
  with_messages (messages p ++ [{| msg_text := message; msg_type := t |}]) p.

(** What the platform answers during one [saveToStorage]: the clock, and
    whether [localStorage.setItem] succeeds (it throws when the quota is
    exceeded). *)
Record SaveEnv := {
  now : string;
  setItem_ok : bool
}.

(** The metadata kept for a file by [saveToStorage]. *)
Definition metadata (file : FileInfo) : FileInfo :=
  {| file_id := file_id file; file_name := file_name file;
     file_size := file_size file; file_type := file_type file;
     file_data := None |}.

Definition dataToSave (e : SaveEnv) (p : Page) : Snapshot :=
  {| snap_formData := Some (formData (AppState p));
     snap_uploadedFiles := Some (map metadata (uploadedFiles (AppState p)));
     snap_timestamp := Some (now e) |}.

Definition saveToStorage (e : SaveEnv) (p : Page) : Page :=
  if isSubmitted p then p
  else if setItem_ok e
       then with_localStorage (Some (Parsed (dataToSave e p))) p
       else if negb (isSubmitted p)
            then showMessage "Failed to save metadata, please check storage space" error p
            else p.

(** The callback of the 30-second timer set up by [init].  The field
    [autoSaveInterval] tells whether the timer is still set; [clearInterval]
    unsets it. *)
Definition autoSave (e : SaveEnv) (p : Page) : Page :=
  if negb (isSubmitted p) then saveToStorage e p else p.

(** A value is falsy when it is [undefined] or the empty string. *)
Definition truthy (v : option string) : bool :=
  match v with
  | Some s => negb (String.eqb s "")
  | None => false
  end.

(** What the platform answers while [migrateLegacy] handles the entry at
    index [i]: the clock and the random number that make up the new id, and
    whether the IndexedDB transaction of [IDBHelper.putFile] succeeds; and
    the answers for the [saveToStorage] that follows a migration. *)
Record MigrateEnv := {
  date_now : nat -> N;
  random36 : nat -> string;
  putFile_ok : nat -> bool;
  migrate_save : SaveEnv
}.

(** [`file-${Date.now()}-${Math.random().toString(36).slice(2,9)}`] *)
Definition fresh_id (e : MigrateEnv) (i : nat) : string :=
  "file-" +:+ pretty (date_now e i) +:+ "-" +:+ substring 2 7 (random36 e i).

(** The conversion of a legacy data URL to a [Blob]; [None] when [atob]
    throws. *)
Definition legacyBlob (f : FileInfo) : option Blob :=
  let parts := split "," (default "" (file_data f)) in
  let base64 := default "" (parts !! 1%nat) in
  match atob base64 with
  | Some byteCharacters =>
      Some {| blob_bytes := charCodes byteCharacters;
              blob_type := normalizeType (if String.eqb (file_type f) ""
                                          then "application/octet-stream"
                                          else file_type f) |}
  | None => None
  end.

(** [IDBHelper.putFile] when its transaction completes: the record is put
    under its key, replacing one that has the same key. *)
Definition putFile (id : string) (file : Blob) (p : Page) : Page :=
  with_idb (<[id := file]> (idb p)) p.

(** One iteration of the loop of [migrateLegacy], on the page and the
    [migrated] flag.  The source awaits [IDBHelper.putFile] between reading
    the entry and writing its reference form at the same index; the
    iteration is given for the case that no other handler runs during that
    wait. *)
Definition migrateStep (e : MigrateEnv) (st : Page * bool) (i : nat) : Page * bool :=
  match uploadedFiles (AppState (fst st)) !! i with
  | Some f =>
      if truthy (file_data f) then
        match legacyBlob f with
        | Some blob =>
            let id := fresh_id e i in
            if putFile_ok e i then
              (with_uploadedFiles
                 (<[i := {| file_id := Some id; file_name := file_name f;
                            file_size := file_size f; file_type := file_type f;
                            file_data := None |}]> (uploadedFiles (AppState (fst st))))
                 (putFile id blob (fst st)),
               true)
            else st
        | None => st
        end
      else st
  | None => st
  end.

Definition migrateLoop (e : MigrateEnv) (p : Page) : Page * bool :=
  fold_left (migrateStep e) (seq 0 (length (uploadedFiles (AppState p)))) (p, false).

(** The function [migrateLegacy] that [loadFromStorage] defines and calls
    at once, on the list it has just read from [localStorage]. *)
Definition migrateLegacy (e : MigrateEnv) (p : Page) : Page :=
  let st := migrateLoop e p in
  if snd st then saveToStorage (migrate_save e) (fst st) else fst st.

Definition loadFromStorage (e : MigrateEnv) (p : Page) : Page :=
  match localStorage p with
  | Some (Parsed parsedData) =>
      migrateLegacy e
        (with_AppState
           {| currentStep := currentStep (AppState p);
              formData := default ∅ (snap_formData parsedData);
              uploadedFiles := default [] (snap_uploadedFiles parsedData) |} p)
  | _ => p
  end.

Definition clearStorage (p : Page) : Page :=
  with_autoSaveInterval false
    (with_AppState {| currentStep := currentStep (AppState p);
                      formData := ∅; uploadedFiles := [] |}
       (with_localStorage None (with_isSubmitted true p))).

(** The object returned by [getClaimData]. *)
Record ClaimData := {
  cd_formData : gmap string FormValue;
  cd_uploadedFiles : list FileInfo;
  cd_timestamp : string
}.

Definition getClaimData (now : string) (p : Page) : ClaimData :=
  {| cd_formData := formData (AppState p);
     cd_uploadedFiles := uploadedFiles (AppState p);
     cd_timestamp := now |}.

(** [Array.prototype.splice(index, 1)] for an integer [index]: a negative
    start counts from the end, and the start is clamped to the array. *)
Definition splice_start (len index : Z) : Z :=
  if index <? 0 then Z.max (len + index) 0 else Z.min index len.

Definition splice1 {A} (index : Z) (l : list A) : list A :=
  let len := Z.of_nat (length l) in
  let start := splice_start len index in
  let deleteCount := Z.min (Z.max 1 0) (len - start) in
  take (Z.to_nat start) l ++ drop (Z.to_nat (start + deleteCount)) l.

Definition removeFile (e : SaveEnv) (index : Z) (p : Page) : Page :=
  showMessage "File deleted" info
    (saveToStorage e
       (with_uploadedFiles (splice1 index (uploadedFiles (AppState p))) p)).

(** [String.prototype.replace] with a string pattern: the first occurrence
    is replaced. *)
Definition replace_first (pat rep s : string) : string :=
  match index 0 pat s with
  | Some i =>
      substring 0 i s +:+ rep +:+
      substring (i + String.length pat) (String.length s - (i + String.length pat)) s
  | None => s
  end.

(** The characters that [sanitizeFileName] replaces (less-than,
    greater-than, colon, double quote, slash, backslash, bar, question mark
    and star), by character code. *)
Definition is_unsafe_char (c : ascii) : bool :=
  let n := N_of_ascii c in
  ((n =? 60) || (n =? 62) || (n =? 58) || (n =? 34) || (n =? 47) ||
   (n =? 92) || (n =? 124) || (n =? 63) || (n =? 42))%N.

(** The class [\s] on code units below 256. *)
Definition is_space (c : ascii) : bool :=
  let n := N_of_ascii c in
  ((n =? 9) || (n =? 10) || (n =? 11) || (n =? 12) || (n =? 13) ||
   (n =? 32) || (n =? 160))%N.

Fixpoint collapse_spaces (in_run : bool) (l : list ascii) : list ascii :=
  match l with
  | [] => []
  | c :: r =>
      if is_space c
      then if in_run then collapse_spaces true r
           else "_"%char :: collapse_spaces true r
      else c :: collapse_spaces false r
  end.

Definition sanitizeFileName (fileName : string) : string :=
  string_of_list_ascii
    (collapse_spaces false
       (map (fun c => if is_unsafe_char c then "_"%char else c)
            (list_ascii_of_string fileName))).

(** The body of the callback that [exportUploadedFiles] schedules for the
    file at [index]; a thrown exception is caught and reported. *)
Definition exportFile (baseFileName : option string) (index : nat) (file : FileInfo)
    (p : Page) : Page :=
  let failed := showMessage ("Failed to export file: " +:+ file_name file) error p in
  match file_data file with
  | None => failed
  | Some d =>
      match atob_arg (split "," d !! 1%nat) with
      | None => failed
      | Some byteCharacters =>
          let blob := {| blob_bytes := charCodes byteCharacters;
                         blob_type := normalizeType (file_type file) |} in
          let fileExtension := List.last (split "." (file_name file)) "" in
          let fileNameWithoutExt :=
            replace_first ("." +:+ fileExtension) "" (file_name file) in
          let safeFileName :=
            default "undefined" baseFileName +:+ "_file" +:+ pretty (S index) +:+ "_"
            +:+ sanitizeFileName fileNameWithoutExt +:+ "." +:+ fileExtension in
          with_downloads (downloads p ++ [{| dl_name := safeFileName; dl_blob := blob |}]) p
      end
  end.

Fixpoint exportFrom (baseFileName : option string) (index : nat) (files : list FileInfo)
    (p : Page) : Page :=
  match files with
  | [] => p
  | file :: rest =>
      exportFrom baseFileName (S index) rest (exportFile baseFileName index file p)
  end.

(** The callbacks are scheduled [index * 500] ms ahead; they are taken to
    run, each one on the entry it was scheduled for, in the order of the
    list. *)
Definition exportUploadedFiles (baseFileName : option string) (p : Page) : Page :=
  if (length (uploadedFiles (AppState p)) =? 0)%nat then p
  else exportFrom baseFileName 0 (uploadedFiles (AppState p)) p.

(** [confirmSignature]: [canvas] is the data URL of the signature canvas,
    [None] when the page has no such canvas. *)
Definition confirmSignature (e : SaveEnv) (canvas : option string) (p : Page) : Page :=
  match canvas with
  | None => p
  | Some dataUrl =>
      let p1 := with_formData (<["claimSignature" := FStr dataUrl]> (formData (AppState p))) p in
      let p2 := saveToStorage e p1 in
      let p3 := with_currentStep (currentStep (AppState p2) + 1) p2 in
      showMessage "Proceeding to next step" success p3
  end.

(** [collectFormData] followed by [saveToStorage], as the [change] handler
    of every input does; [inputs] lists what the form elements hold. *)
Definition collectFormData (inputs : list (string * FormValue)) (p : Page) : Page :=
  with_formData
    (fold_left
       (fun m kv =>
          match snd kv with
          | FBool _ => <[fst kv := snd kv]> m
          | FStr s => if String.eqb s "" then m else <[fst kv := snd kv]> m
          end)
       inputs (formData (AppState p))) p.

Definition saveForm (e : SaveEnv) (inputs : list (string * FormValue)) (p : Page) : Page :=
  showMessage "Form saved as draft" success (saveToStorage e (collectFormData inputs p)).

(** [clearField] for a field that exists in the document. *)
Definition clearField (e : SaveEnv) (fieldId : string) (p : Page) : Page :=
  saveToStorage e (with_formData (delete fieldId (formData (AppState p))) p).

(** ** FileHandler *)

(** A [File] handed over by the browser. *)
Record File := {
  f_name : string;
  f_size : Z;
  f_type : string
}.

Definition maxFileSize : Z := 10 * 1024 * 1024.

Definition allowedTypes : list string :=
  ["image/jpeg"; "image/png"; "image/gif"; "application/pdf"].

Definition includes (l : list string) (s : string) : bool :=
  existsb (String.eqb s) l.

Definition validateFile (file : File) (p : Page) : bool * Page :=
  if negb (includes allowedTypes (f_type file))
  then (false, showMessage ("Unsupported file type: " +:+ f_name file) error p)
  else if f_size file >? maxFileSize
       then (false, showMessage ("File too large: " +:+ f_name file +:+ " (max 10MB)") error p)
       else (true, p).

(** What the platform answers while one file is processed: the result of
    [readFileAsBase64] ([None] when the reader fails) and the answers for
    [saveToStorage]. *)
Record UploadEnv := {
  readFileAsBase64 : option string;
  upload_save : SaveEnv
}.

(** One iteration of the loop of [processFiles]. *)
Definition processFile (p : Page) (fe : File * UploadEnv) : Page :=
  let file := fst fe in
  let v := validateFile file p in
  if negb (fst v) then snd v
  else
    match readFileAsBase64 (snd fe) with
    | Some fileData =>
        let fileInfo := {| file_id := None; file_name := f_name file;
                           file_size := f_size file; file_type := f_type file;
                           file_data := Some fileData |} in
        let p1 := with_uploadedFiles (uploadedFiles (AppState (snd v)) ++ [fileInfo]) (snd v) in
        let p2 := saveToStorage (upload_save (snd fe)) p1 in
        showMessage ("File " +:+ f_name file +:+ " uploaded successfully") success p2
    | None =>
        showMessage ("File " +:+ f_name file +:+ " processing failed") error (snd v)
    end.

Definition processFiles (files : list (File * UploadEnv)) (p : Page) : Page :=
  fold_left processFile files p.

(** [submitClaim] once validation has passed and the 2-second timer fires,
    the export left aside: the claim is marked submitted and the auto-save
    timer is cleared. *)
Definition markSubmitted (p : Page) : Page :=
  with_autoSaveInterval false (with_isSubmitted true p).

(** ** The cross-context bridge *)

(** A message between the page and the service worker: the [type] and
    [data] properties of [event.data]. *)
Record BridgeMessage := {
  bm_type : option string;
  bm_data : option ClaimData
}.

(** The page's handler of [message] events from the service worker:
    [data] is [event.data] ([None] when it is null) and [port] tells whether
    [event.ports[0]] exists.  The result is what is posted on that port. *)
Definition onServiceWorkerMessage (now : string) (data : option BridgeMessage)
    (port : bool) (p : Page) : option BridgeMessage :=
  match data with
  | Some m =>
      if bool_decide (bm_type m = Some "REQUEST_CLAIM_DATA") then
        if port
        then Some {| bm_type := Some "CLAIM_DATA_RESPONSE";
                     bm_data := Some (getClaimData now p) |}
        else None
      else None
  | None => None
  end.

(** The service worker (sw.js). *)
Module ServiceWorker.

(** The argument of [JSON.stringify] that makes the body of a response. *)
Inductive Body :=
| ErrorBody (err : string)
| DataBody (d : option ClaimData).

Record Response := {
  status : Z;
  contentType : string;
  body : Body
}.

(** A window client as the worker sees it: when the first message arrives
    on the reply port (milliseconds after the request was posted) and what
    [event.data] it carries, or [None] when no message ever arrives. *)
Record Client := {
  reply : option (N * option BridgeMessage)
}.

(** The outcome of [clients.matchAll]: it throws (the string is [String(e)])
    or yields the clients. *)
Inductive MatchAll :=
| MatchAllThrows (e : string)
| MatchAllClients (allClients : list Client).

Definition timeout_ms : N := 1500.

Definition errorResponse (e : string) : Response :=
  {| status := 500; contentType := "application/json"; body := ErrorBody e |}.

(** The promise built around the reply port: the first of the timer and the
    message settles it.  A message beats the timer when it arrives before
    the 1500 ms have passed. *)
Definition responsePromise (client : Client) : Response + string :=
  match reply client with
  | Some (t, data) =>
      if (t <? timeout_ms)%N then
        match data with
        | Some m =>
            if bool_decide (bm_type m = Some "CLAIM_DATA_RESPONSE")
            then inl {| status := 200; contentType := "application/json";
                        body := DataBody (bm_data m) |}
            else inr "no-data"
        | None => inr "no-data"
        end
      else inr "timeout"
  | None => inr "timeout"
  end.

(** The response to a fetch of [/claim-data]. *)
Definition claimDataResponse (m : MatchAll) : Response :=
  match m with
  | MatchAllThrows e => errorResponse e
  | MatchAllClients allClients =>
      match allClients with
      | client :: _ =>
          match responsePromise client with
          | inl r => r
          | inr e => errorResponse e
          end
      | [] => errorResponse "no-client"
      end
  end.

(** The [fetch] handler: [None] when the worker does not respond itself. *)
Definition onFetch (pathname : string) (m : MatchAll) : option Response :=
  if String.eqb pathname "/claim-data" then Some (claimDataResponse m) else None.

End ServiceWorker.

Import ServiceWorker.

(** The message that the worker posts to its first client. *)
Definition request : BridgeMessage :=
  {| bm_type := Some "REQUEST_CLAIM_DATA"; bm_data := None |}.

(** The page as a client of the worker: it answers the request after [t]
    ms through its message handler. *)
Definition pageClient (now : string) (t : N) (p : Page) : Client :=
  {| reply :=
       match onServiceWorkerMessage now (Some request) true p with
       | Some m => Some (t, Some m)
       | None => None
       end |}.

(** ** Entry points that lead to [saveToStorage] *)

Inductive Event :=
| EvSave (e : SaveEnv)
| EvAutoSave (e : SaveEnv)
| EvSaveForm (e : SaveEnv) (inputs : list (string * FormValue))
| EvClearField (e : SaveEnv) (fieldId : string)
| EvConfirmSignature (e : SaveEnv) (canvas : option string)
| EvProcessFiles (files : list (File * UploadEnv))
| EvRemoveFile (e : SaveEnv) (index : Z)
| EvMigrate (e : MigrateEnv).

Definition handle (p : Page) (ev : Event) : Page :=
  match ev with
  | EvSave e => saveToStorage e p
  | EvAutoSave e => autoSave e p
  | EvSaveForm e inputs => saveForm e inputs p
  | EvClearField e fieldId => clearField e fieldId p
  | EvConfirmSignature e canvas => confirmSignature e canvas p
  | EvProcessFiles files => processFiles files p
  | EvRemoveFile e index => removeFile e index p
  | EvMigrate e => migrateLegacy e p
  end.

Definition run (events : list Event) (p : Page) : Page :=
  fold_left handle events p.

(** ** Predicates of the properties *)


(** A descriptor in legacy form, as [migrateLegacy] tests it. *)
Definition legacy (f : FileInfo) : Prop := truthy (file_data f) = true.

(** A data URL: text that starts with [data:]. *)
Definition is_data_url (s : string) : bool := String.prefix "data:" s.

(** A stored snapshot holds inline binary content when a file entry has a
    [data] property or a form field holds a data URL. *)
Definition holds_binary (d : Snapshot) : Prop :=
  (∃ f, f ∈ default [] (snap_uploadedFiles d) ∧ is_Some (file_data f)) ∨
  (∃ k s, default ∅ (snap_formData d) !! k = Some (FStr s) ∧ is_data_url s = true).

(** A page is frozen with respect to another when it is submitted and holds
    the same stored snapshot. *)
Definition frozen (p q : Page) : Prop :=
  isSubmitted q = true ∧ localStorage q = localStorage p.

(** The reference form that [migrateLegacy] writes in place of an entry. *)
Definition referenceForm (id : string) (f : FileInfo) : FileInfo :=
  {| file_id := Some id; file_name := file_name f; file_size := file_size f;
     file_type := file_type f; file_data := None |}.

(** Whether the entry [f] at index [i] is migrated: it is in legacy form,
    its data decodes, and the blob store takes the blob. *)
Definition migrates (e : MigrateEnv) (i : nat) (f : FileInfo) : bool :=
  truthy (file_data f) &&
  match legacyBlob f with Some _ => putFile_ok e i | None => false end.

Definition migrated (e : MigrateEnv) (i : nat) (f : FileInfo) : FileInfo :=
  if migrates e i f then referenceForm (fresh_id e i) f else f.

(** The file list after the loop, for entries that start at index [i0]. *)
Fixpoint migratedFrom (e : MigrateEnv) (i0 : nat) (files : list FileInfo) : list FileInfo :=
  match files with
  | [] => []
  | f :: rest => migrated e i0 f :: migratedFrom e (S i0) rest
  end.

(** The blob store after the loop. *)
Fixpoint idbFrom (e : MigrateEnv) (i0 : nat) (files : list FileInfo)
    (d : gmap string Blob) : gmap string Blob :=
  match files with
  | [] => d
  | f :: rest =>
      idbFrom e (S i0) rest
        (match legacyBlob f with
         | Some blob => if migrates e i0 f then <[fresh_id e i0 := blob]> d else d
         | None => d
         end)
  end.

(** Whether the loop migrates any entry. *)
Fixpoint anyFrom (e : MigrateEnv) (i0 : nat) (files : list FileInfo) : bool :=
  match files with
  | [] => false
  | f :: rest => migrates e i0 f || anyFrom e (S i0) rest
  end.

(** The empty page at start-up. *)
Definition emptyPage : Page :=
  {| AppState := {| currentStep := 1; formData := ∅; uploadedFiles := [] |};
     isSubmitted := false; autoSaveInterval := true; localStorage := None;
     idb := ∅; messages := []; downloads := [] |}.

(** The outcome of the export of one file: the download it triggers, or
    the notification of its failure. *)
Definition exportOutcome (baseFileName : option string) (index : nat) (file : FileInfo)
    : Download + Message :=
  let failed := {| msg_text := "Failed to export file: " +:+ file_name file;
                   msg_type := error |} in
  match file_data file with
  | None => inr failed
  | Some d =>
      match atob_arg (split "," d !! 1%nat) with
      | None => inr failed
      | Some byteCharacters =>
          let fileExtension := List.last (split "." (file_name file)) "" in
          inl {| dl_name :=
                   default "undefined" baseFileName +:+ "_file" +:+ pretty (S index) +:+ "_"
                   +:+ sanitizeFileName
                         (replace_first ("." +:+ fileExtension) "" (file_name file))
                   +:+ "." +:+ fileExtension;
                 dl_blob := {| blob_bytes := charCodes byteCharacters;
                               blob_type := normalizeType (file_type file) |} |}
      end
  end.

Fixpoint outcomesFrom (baseFileName : option string) (index : nat) (files : list FileInfo)
    : list (Download + Message) :=
  match files with
  | [] => []
  | file :: rest =>
      exportOutcome baseFileName index file :: outcomesFrom baseFileName (S index) rest
  end.

Definition downloadOf (o : Download + Message) : option Download :=
  match o with inl d => Some d | inr _ => None end.

Definition messageOf (o : Download + Message) : option Message :=
  match o with inl _ => None | inr m => Some m end.

(** ** Sample data *)

Definition clock : string := "2024-01-01T00:00:00.000Z".

Definition saveOk : SaveEnv := {| now := clock; setItem_ok := true |}.

Definition samplePdf : File :=
  {| f_name := "report 1.pdf"; f_size := 2097152; f_type := "application/pdf" |}.

Definition sampleText : File :=
  {| f_name := "notes.txt"; f_size := 10; f_type := "text/plain" |}.

Definition sampleHuge : File :=
  {| f_name := "scan.png"; f_size := 10485761; f_type := "image/png" |}.

Definition sampleRead : UploadEnv :=
  {| readFileAsBase64 := Some "data:application/pdf;base64,JVBERg=="; upload_save := saveOk |}.

(** The page after one accepted upload. *)
Definition uploadedPage : Page := processFiles [(samplePdf, sampleRead)] emptyPage.

Definition legacyFile : FileInfo :=
  {| file_id := None; file_name := "scan.png"; file_size := 4;
     file_type := "image/png"; file_data := Some "data:image/png;base64,iVBORw==" |}.

Definition corruptFile : FileInfo :=
  {| file_id := None; file_name := "torn.gif"; file_size := 9;
     file_type := "image/gif"; file_data := Some "data:image/gif;base64,@@@@@" |}.

Definition storedFileA : FileInfo :=
  {| file_id := Some "file-1700000000000-k3j2h1g"; file_name := "a.pdf"; file_size := 120;
     file_type := "application/pdf"; file_data := None |}.

Definition storedFileB : FileInfo :=
  {| file_id := Some "file-1700000000001-z9y8x7w"; file_name := "b.png"; file_size := 64;
     file_type := "image/png"; file_data := None |}.

(** A page whose stored list still holds entries in legacy form. *)
Definition legacyPage : Page := with_uploadedFiles [corruptFile; legacyFile] emptyPage.

Definition storedPage : Page := with_uploadedFiles [storedFileA; storedFileB] emptyPage.

Definition legacyFile2 : FileInfo :=
  {| file_id := None; file_name := "first.png"; file_size := 3;
     file_type := "image/png"; file_data := Some "data:image/png;base64,iVBO" |}.

(** A page at start-up whose stored snapshot holds two entries in legacy
    form, both of which decode. *)
Definition legacyStored : Page :=
  with_localStorage
    (Some (Parsed {| snap_formData := Some ∅;
                     snap_uploadedFiles := Some [legacyFile2; legacyFile];
                     snap_timestamp := Some clock |}))
    emptyPage.

(** The blob store refuses the entry at index 0 and accepts the others. *)
Definition refusingFirst : MigrateEnv :=
  {| date_now := fun i => (1700000000000 + N.of_nat i)%N;
     random36 := fun _ => "0.k3j2h1g0f9";
     putFile_ok := fun i => negb (i =? 0)%nat;
     migrate_save := saveOk |}.

Definition accepting : MigrateEnv :=
  {| date_now := fun i => (1700000000000 + N.of_nat i)%N;
     random36 := fun _ => "0.k3j2h1g0f9";
     putFile_ok := fun _ => true;
     migrate_save := saveOk |}.

Definition refusing : MigrateEnv :=
  {| date_now := fun i => (1700000000000 + N.of_nat i)%N;
     random36 := fun _ => "0.k3j2h1g0f9";
     putFile_ok := fun _ => false;
     migrate_save := saveOk |}.

(** A draft was saved, the claim was submitted, and a field was changed
    afterwards: the stored snapshot is older than the page. *)
Definition stalePage : Page :=
  saveForm saveOk [("insured-name", FStr "Janet Doe")]
    (markSubmitted (saveForm saveOk [("insured-name", FStr "Jane Doe")] storedPage)).

Definition signature : string := "data:image/png;base64,iVBORw0KGgo=".

(** ** Further operations of the page script *)

(** [IDBHelper.getFile]: the file stored under [id], [None] for [null]. *)
Definition getFile (id : string) (p : Page) : option Blob := idb p !! id.

(** *** FormValidator *)

Definition is_digit (c : ascii) : bool :=
  let n := N_of_ascii c in ((48 <=? n) && (n <=? 57))%N.

Definition is_nonzero_digit (c : ascii) : bool :=
  let n := N_of_ascii c in ((49 <=? n) && (n <=? 57))%N.

(** The class of whitespace, dash and parentheses that
    [isValidInternationalPhone] removes first. *)
Definition is_separator (c : ascii) : bool :=
  let n := N_of_ascii c in
  (is_space c || (n =? 45) || (n =? 40) || (n =? 41))%N.

Definition cleanPhone (phone : string) : list ascii :=
  filter (fun c => is_separator c = false) (list_ascii_of_string phone).

(** Only digits, at least [lo] and at most [hi] of them. *)
Definition digits_between (lo hi : nat) (l : list ascii) : bool :=
  forallb is_digit l && (lo <=? length l)%nat && (length l <=? hi)%nat.

(** The four patterns, in the order of the source: a plus sign and a
    country code; the prefix 00; the national format; plain digits. *)
Definition pattern_plus (l : list ascii) : bool :=
  match l with
  | c :: d :: r => Ascii.eqb c "+" && is_nonzero_digit d && digits_between 6 14 r
  | _ => false
  end.

Definition pattern_00 (l : list ascii) : bool :=
  match l with
  | a :: b :: d :: r =>
      Ascii.eqb a "0" && Ascii.eqb b "0" && is_nonzero_digit d && digits_between 6 14 r
  | _ => false
  end.

Definition pattern_national (l : list ascii) : bool :=
  match l with
  | d :: r => is_nonzero_digit d && digits_between 6 14 r
  | _ => false
  end.

Definition pattern_numeric (l : list ascii) : bool := digits_between 7 15 l.

Definition isValidInternationalPhone (phone : string) : bool :=
  existsb (fun pattern => pattern (cleanPhone phone))
    [pattern_plus; pattern_00; pattern_national; pattern_numeric].

(** Whether a form answer is truthy; a missing answer is [undefined]. *)
Definition truthyValue (v : option FormValue) : bool :=
  match v with
  | Some (FStr s) => negb (String.eqb s "")
  | Some (FBool b) => b
  | None => false
  end.

(** The error pushed when the field [key] is falsy. *)
Definition required (m : gmap string FormValue) (key message : string) : list string :=
  if truthyValue (m !! key) then [] else [message].

(** The check of a phone field.  [None] stands for the [TypeError] thrown
    when the answer is [true]: a boolean has no [replace] method. *)
Definition phoneErrors (v : option FormValue) (missing invalid : string)
    : option (list string) :=
  match v with
  | Some (FStr s) =>
      if String.eqb s "" then Some [missing]
      else if isValidInternationalPhone s then Some [] else Some [invalid]
  | Some (FBool true) => None
  | _ => Some [missing]
  end.

Definition validateStep1 (p : Page) : option (list string) :=
  let m := formData (AppState p) in
  match phoneErrors (m !! "phone") "Please enter phone number"
          "Please enter a valid international phone number (e.g., +1234567890)" with
  | Some phone =>
      Some (required m "insured-name" "Please enter insured person name" ++
            required m "id-number" "Please enter ID number" ++
            phone ++
            required m "accident-time" "Please select incident time" ++
            required m "accident-situation" "Please select incident situation" ++
            required m "agreement" "Please read and agree to the terms and conditions")
  | None => None
  end.

Definition validateStep2 (p : Page) : option (list string) :=
  let m := formData (AppState p) in
  match phoneErrors (m !! "payee-phone") "Please enter payee phone number"
          "Please enter a valid payee phone number" with
  | Some phone =>
      Some (required m "payee-name" "Please enter payee name" ++
            phone ++
            required m "bank-card" "Please enter bank card number" ++
            required m "bank-name" "Please select bank name")
  | None => None
  end.

Definition showValidationErrors (errors : list string) (p : Page) : bool * Page :=
  if (0 <? length errors)%nat
  then (false, showMessage (String.concat "; " errors) error p)
  else (true, p).

(** *** Step navigation *)

(** The step is advanced, the page saved and the user told. *)
Definition proceed (e : SaveEnv) (p : Page) : Page :=
  showMessage "Proceeding to next step" success
    (saveToStorage e (with_currentStep (currentStep (AppState p) + 1) p)).

(** [nextStep].  An exception thrown by a validator leaves the handler
    after [collectFormData]. *)
Definition nextStep (e : SaveEnv) (inputs : list (string * FormValue)) (p : Page) : Page :=
  let p := collectFormData inputs p in
  if currentStep (AppState p) =? 1 then
    match validateStep1 p with
    | Some errors =>
        let v := showValidationErrors errors p in
        if negb (fst v) then snd v else proceed e (snd v)
    | None => p
    end
  else
    let checked :=
      if currentStep (AppState p) =? 2 then
        match validateStep2 p with
        | Some errors => Some (showValidationErrors errors p)
        | None => None
        end
      else Some (true, p) in
    match checked with
    | Some v =>
        if negb (fst v) then snd v
        else if currentStep (AppState (snd v)) <? maxSteps then proceed e (snd v)
             else snd v
    | None => p
    end.

Definition prevStep (p : Page) : Page :=
  if currentStep (AppState p) >? 1
  then with_currentStep (currentStep (AppState p) - 1) p
  else p.

(** *** Export *)

(** An entry of [uploadedFiles] in the exported JSON document. *)
Record ExportedFile := {
  ex_name : string;
  ex_size : Z;
  ex_type : string;
  ex_dataRemoved : bool;
  ex_note : string
}.

(** The exported JSON document, as given to [JSON.stringify]. *)
Record ExportDocument := {
  doc_formData : gmap string FormValue;
  doc_uploadedFiles : list ExportedFile;
  doc_exportTime : string;
  doc_note : string
}.

(** The two readings of the clock that [exportToFile] takes. *)
Record ExportEnv := {
  export_stamp : string;
  export_time : string
}.

(** [`Insurance_Claim_Data_${timestamp}`] with the date part of the ISO
    time. *)
Definition baseFileName (e : ExportEnv) : string :=
  "Insurance_Claim_Data_" +:+ List.hd "" (split "T" (export_stamp e)).

Definition dataToExport (e : ExportEnv) (p : Page) : ExportDocument :=
  {| doc_formData := formData (AppState p);
     doc_uploadedFiles :=
       map (fun file => {| ex_name := file_name file; ex_size := file_size file;
                           ex_type := file_type file; ex_dataRemoved := true;
                           ex_note := "Original file saved separately" |})
           (uploadedFiles (AppState p));
     doc_exportTime := export_time e;
     doc_note := "Uploaded files are saved as separate files alongside this JSON" |}.

(** What [exportToFile] does before it returns: the JSON document
    [dataToExport] is downloaded as [baseFileName e +:+ ".json"] (this
    download, whose content is text, is described by these two values and
    not entered in the log of binary downloads), the export of the files is
    scheduled, and the user is told. *)
Definition exportToFile_started (p : Page) : Page :=
  showMessage "Data and files exported successfully" success p.

(** [exportToFile] with the scheduled exports of the files done. *)
Definition exportToFile (e : ExportEnv) (p : Page) : Page :=
  exportUploadedFiles (Some (baseFileName e)) (exportToFile_started p).

(** [submitClaim], up to the return of its 2-second timer callback, for
    the case that no other handler runs in the 2 seconds between the call
    and the callback: the claim is marked submitted and the timer cleared
    in that callback only.  The exports of the files scheduled by
    [exportToFile] are still pending when the page is left for the success
    page. *)
Definition submitClaim (inputs : list (string * FormValue)) (p : Page) : Page :=
  let p := collectFormData inputs p in
  match validateStep1 p with
  | Some step1Errors =>
      match validateStep2 p with
      | Some step2Errors =>
          let v := showValidationErrors (step1Errors ++ step2Errors) p in
          if negb (fst v) then snd v
          else if (length (uploadedFiles (AppState p)) =? 0)%nat
               then showMessage "Please upload at least one document" error p
               else markSubmitted
                      (exportToFile_started
                         (showMessage "Submitting insurance claim..." info p))
      | None => p
      end
  | None => p
  end.

(** *** Bank card formatting *)

Definition removeSpaces (l : list ascii) : list ascii :=
  filter (fun c => is_space c = false) l.

(** A space after every complete group of four characters (on text without
    line terminators, as the text is once its whitespace is removed). *)
Fixpoint group4 (l : list ascii) : list ascii :=
  match l with
  | a :: b :: c :: d :: r => a :: b :: c :: d :: " "%char :: group4 r
  | _ => l
  end.

Fixpoint trimStart (l : list ascii) : list ascii :=
  match l with
  | c :: r => if is_space c then trimStart r else l
  | [] => []
  end.

(** [String.prototype.trim] *)
Definition trim (l : list ascii) : list ascii :=
  rev (trimStart (rev (trimStart l))).

Definition formatBankCard (value : string) : string :=
  string_of_list_ascii (trim (group4 (removeSpaces (list_ascii_of_string value)))).

(** *** Views used by the properties *)

(** Groups of four characters with one space between two groups. *)
Fixpoint spaced (l : list ascii) : list ascii :=
  match l with
  | a :: b :: c :: d :: r =>
      match r with
      | [] => [a; b; c; d]
      | _ :: _ => a :: b :: c :: d :: " "%char :: spaced r
      end
  | _ => l
  end.


(** The entry that [processFiles] appends for a file, if it accepts it. *)
Definition accepted (fe : File * UploadEnv) : option FileInfo :=
  if includes allowedTypes (f_type (fst fe)) && negb (f_size (fst fe) >? maxFileSize)
  then match readFileAsBase64 (snd fe) with
       | Some fileData =>
           Some {| file_id := None; file_name := f_name (fst fe);
                   file_size := f_size (fst fe); file_type := f_type (fst fe);
                   file_data := Some fileData |}
       | None => None
       end
  else None.

(** Every id in the file list resolves in the blob store. *)
Definition resolvable (p : Page) : Prop :=
  ∀ f id, f ∈ uploadedFiles (AppState p) → file_id f = Some id →
          is_Some (getFile id p).

(** The step is one of the three steps of the form. *)
Definition step_in_range (p : Page) : Prop :=
  1 ≤ currentStep (AppState p) ≤ maxSteps.

(** The answers of a form that passes both validations. *)
Definition completeInputs : list (string * FormValue) :=
  [("insured-name", FStr "Jane Doe"); ("id-number", FStr "X1234567");
   ("phone", FStr "+1 (555) 123-4567"); ("accident-time", FStr "2024-01-01");
   ("accident-situation", FStr "traffic-accident"); ("agreement", FBool true);
   ("payee-name", FStr "Jane Doe"); ("payee-phone", FStr "0015551234567");
   ("bank-card", FStr "6222 0212 3456 7890"); ("bank-name", FStr "ICBC")].

Definition exportNow : ExportEnv :=
  {| export_stamp := "2024-01-01T00:00:00.000Z"; export_time := "2024-01-01T00:00:00.001Z" |}.

(** * Properties *)

(** ** Bookkeeping: which operation touches which part of the page *)

Lemma saveToStorage_submitted e p :
  isSubmitted p = true → saveToStorage e p = p.
Proof. intros H. unfold saveToStorage. now rewrite H. Qed.

(** The three ways through [saveToStorage]: submitted, written, refused. *)
Ltac save_cases e p :=
  unfold saveToStorage;
  destruct (isSubmitted p) eqn:?; [|destruct (setItem_ok e) eqn:?]; simpl.

Lemma saveToStorage_AppState e p :
  AppState (saveToStorage e p) = AppState p.
Proof. save_cases e p; reflexivity. Qed.

Lemma saveToStorage_idb e p : idb (saveToStorage e p) = idb p.
Proof. save_cases e p; reflexivity. Qed.

(** What [saveToStorage] leaves under the storage key. *)
Lemma saveToStorage_localStorage e p :
  localStorage (saveToStorage e p) =
  if negb (isSubmitted p) && setItem_ok e
  then Some (Parsed (dataToSave e p))
  else localStorage p.
Proof.
  unfold saveToStorage.
  destruct (isSubmitted p); [reflexivity|].
  destruct (setItem_ok e); reflexivity.
Qed.

Lemma frozen_refl p : isSubmitted p = true → frozen p p.
Proof. now split. Qed.

Lemma frozen_trans p q r : frozen p q → frozen q r → frozen p r.
Proof. intros [_ H1] [H2 H3]. split; [exact H2 | now rewrite H3]. Qed.

Lemma frozen_save e p : isSubmitted p = true → frozen p (saveToStorage e p).
Proof. intros H. rewrite saveToStorage_submitted by exact H. now apply frozen_refl. Qed.

Lemma processFile_frozen p fe :
  isSubmitted p = true → frozen p (processFile p fe).
Proof.
  intros H. unfold processFile, validateFile.
  destruct (negb (includes allowedTypes (f_type (fst fe)))); simpl; [now split|].
  destruct (f_size (fst fe) >? maxFileSize); simpl; [now split|].
  destruct (readFileAsBase64 (snd fe)); [|now split].
  rewrite saveToStorage_submitted by exact H. now split.
Qed.

Lemma processFiles_frozen files p :
  isSubmitted p = true → frozen p (processFiles files p).
Proof.
  unfold processFiles. revert p.
  induction files as [|fe files IH]; intros p H; simpl.
  - now apply frozen_refl.
  - pose proof (processFile_frozen p fe H) as Hf.
    eapply frozen_trans; [exact Hf|]. apply IH. apply Hf.
Qed.

Lemma migrateStep_frozen e st i :
  isSubmitted (fst st) = true → frozen (fst st) (fst (migrateStep e st i)).
Proof.
  intros H. unfold migrateStep.
  destruct (uploadedFiles (AppState (fst st)) !! i) as [f|]; [|now split].
  destruct (truthy (file_data f)); [|now split].
  destruct (legacyBlob f); [|now split].
  destruct (putFile_ok e i); now split.
Qed.

Lemma migrateSteps_frozen e l st :
  isSubmitted (fst st) = true →
  frozen (fst st) (fst (fold_left (migrateStep e) l st)).
Proof.
  revert st. induction l as [|i l IH]; intros st H; simpl.
  - now apply frozen_refl.
  - pose proof (migrateStep_frozen e st i H) as Hf.
    eapply frozen_trans; [exact Hf|]. apply IH. apply Hf.
Qed.

Lemma migrateLegacy_frozen e p :
  isSubmitted p = true → frozen p (migrateLegacy e p).
Proof.
  intros H. unfold migrateLegacy, migrateLoop.
  pose proof (migrateSteps_frozen e
                (seq 0 (length (uploadedFiles (AppState p)))) (p, false) H) as Hf.
  simpl in Hf. destruct (snd _); [|exact Hf].
  eapply frozen_trans; [exact Hf|]. apply frozen_save. apply Hf.
Qed.

Lemma handle_frozen p ev : isSubmitted p = true → frozen p (handle p ev).
Proof.
  intros H. destruct ev as [e|e|e inputs|e fieldId|e canvas|files|e index|e]; simpl.
  - now apply frozen_save.
  - unfold autoSave. rewrite H. now apply frozen_refl.
  - unfold saveForm. rewrite saveToStorage_submitted by exact H. now split.
  - unfold clearField. rewrite saveToStorage_submitted by exact H. now split.
  - unfold confirmSignature. destruct canvas as [dataUrl|]; [|now apply frozen_refl].
    rewrite saveToStorage_submitted by exact H. now split.
  - now apply processFiles_frozen.
  - unfold removeFile. rewrite saveToStorage_submitted by exact H. now split.
  - now apply migrateLegacy_frozen.
Qed.

Lemma run_frozen events p : isSubmitted p = true → frozen p (run events p).
Proof.
  unfold run. revert p.
  induction events as [|ev events IH]; intros p H; simpl.
  - now apply frozen_refl.
  - pose proof (handle_frozen p ev H) as Hf.
    eapply frozen_trans; [exact Hf|]. apply IH. apply Hf.
Qed.

(** ** C1: nothing is written once the claim is submitted *)

(** C1. Once [isSubmitted] is true, a call of [saveToStorage] leaves the
    page as it is, so the snapshot in [localStorage] stays unchanged; the
    callback of the auto-save timer does the same; the timer itself is
    cleared by the submission; and after any sequence of the entry points
    that lead to [saveToStorage] (direct saves, timer ticks, form changes,
    signature, uploads, removals, migration) the flag is still set and the
    stored snapshot is still the one found at the start. *)
Theorem submitted_never_writes (p : Page) (e : SaveEnv) (events : list Event) :
  isSubmitted p = true →
  saveToStorage e p = p ∧
  autoSave e p = p ∧
  autoSaveInterval (markSubmitted p) = false ∧
  isSubmitted (run events p) = true ∧
  localStorage (run events p) = localStorage p.
Proof.
  intros H. split; [now apply saveToStorage_submitted|].
  split.
  { unfold autoSave. now rewrite H. }
  split; [reflexivity|].
  exact (run_frozen events p H).
Qed.

(** ** The migration loop in closed form *)

Lemma with_idb_id p : with_idb (idb p) p = p.
Proof. now destruct p. Qed.

Lemma with_uploadedFiles_id p :
  with_uploadedFiles (uploadedFiles (AppState p)) p = p.
Proof. destruct p as [[] ? ? ? ? ? ?]. reflexivity. Qed.

Lemma migrateStep_at e p b i f :
  uploadedFiles (AppState p) !! i = Some f →
  migrateStep e (p, b) i =
  (with_uploadedFiles (<[i := migrated e i f]> (uploadedFiles (AppState p)))
     (with_idb (match legacyBlob f with
                | Some blob => if migrates e i f then <[fresh_id e i := blob]> (idb p) else idb p
                | None => idb p
                end) p),
   b || migrates e i f).
Proof.
  intros Hf. unfold migrateStep, migrated, migrates. simpl. rewrite Hf.
  assert (Hid : (with_uploadedFiles (<[i := f]> (uploadedFiles (AppState p)))
                   (with_idb (idb p) p), b || false) = (p, b)).
  { rewrite list_insert_id by exact Hf.
    rewrite orb_false_r. f_equal.
    rewrite with_idb_id. apply with_uploadedFiles_id. }
  destruct (truthy (file_data f)); simpl.
  - destruct (legacyBlob f) as [blob|]; [|now rewrite Hid].
    destruct (putFile_ok e i); [|now rewrite Hid].
    now rewrite orb_true_r.
  - destruct (legacyBlob f); now rewrite Hid.
Qed.

Lemma migrateSteps_from e (rest : list FileInfo) :
  ∀ (done : list FileInfo) p b,
    uploadedFiles (AppState p) = done ++ rest →
    fold_left (migrateStep e) (seq (length done) (length rest)) (p, b) =
    (with_uploadedFiles (done ++ migratedFrom e (length done) rest)
       (with_idb (idbFrom e (length done) rest (idb p)) p),
     b || anyFrom e (length done) rest).
Proof.
  induction rest as [|f rest IH]; intros done p b Hfiles; simpl.
  - rewrite orb_false_r, with_idb_id, <- Hfiles. now rewrite with_uploadedFiles_id.
  - assert (Hf : uploadedFiles (AppState p) !! length done = Some f).
    { rewrite Hfiles. now apply list_lookup_middle. }
    rewrite (migrateStep_at e p b _ f Hf).
    set (q := with_uploadedFiles _ _).
    assert (Hq : uploadedFiles (AppState q) = (done ++ [migrated e (length done) f]) ++ rest).
    { subst q. simpl. rewrite Hfiles.
      rewrite insert_app_r_alt by lia. rewrite Nat.sub_diag. simpl.
      now rewrite <- app_assoc. }
    specialize (IH (done ++ [migrated e (length done) f]) q (b || migrates e (length done) f) Hq).
    rewrite length_app in IH. simpl in IH. rewrite Nat.add_1_r in IH.
    rewrite IH. rewrite <- app_assoc, orb_assoc. reflexivity.
Qed.

Lemma migrateLoop_closed e p :
  migrateLoop e p =
  (with_uploadedFiles (migratedFrom e 0 (uploadedFiles (AppState p)))
     (with_idb (idbFrom e 0 (uploadedFiles (AppState p)) (idb p)) p),
   anyFrom e 0 (uploadedFiles (AppState p))).
Proof.
  unfold migrateLoop.
  exact (migrateSteps_from e (uploadedFiles (AppState p)) [] p false eq_refl).
Qed.

Lemma migratedFrom_lookup e files :
  ∀ i0 j, migratedFrom e i0 files !! j = migrated e (i0 + j) <$> files !! j.
Proof.
  induction files as [|f files IH]; intros i0 j; [reflexivity|].
  destruct j as [|j]; simpl.
  - now rewrite Nat.add_0_r.
  - rewrite IH. now rewrite Nat.add_succ_r.
Qed.

Lemma migratedFrom_length e files : ∀ i0, length (migratedFrom e i0 files) = length files.
Proof. induction files as [|f files IH]; intros i0; simpl; [reflexivity|]. now rewrite IH. Qed.

(** Nothing is migrated when every legacy entry fails. *)
Lemma migratedFrom_none e files :
  ∀ i0,
    (∀ j f, files !! j = Some f → migrates e (i0 + j) f = false) →
    migratedFrom e i0 files = files ∧
    anyFrom e i0 files = false ∧
    ∀ d, idbFrom e i0 files d = d.
Proof.
  induction files as [|f files IH]; intros i0 H; simpl; [now repeat split|].
  assert (Hf : migrates e i0 f = false).
  { specialize (H 0%nat f eq_refl). now rewrite Nat.add_0_r in H. }
  destruct (IH (S i0)) as (H1 & H2 & H3).
  { intros j g Hg. specialize (H (S j) g Hg). now rewrite Nat.add_succ_r in H. }
  unfold migrated. rewrite Hf, H1, H2. repeat split.
  intros d. rewrite H3. now destruct (legacyBlob f).
Qed.

Lemma migrateLegacy_none e p :
  (∀ j f, uploadedFiles (AppState p) !! j = Some f → migrates e j f = false) →
  migrateLegacy e p = p.
Proof.
  intros H. unfold migrateLegacy. rewrite migrateLoop_closed. simpl.
  destruct (migratedFrom_none e (uploadedFiles (AppState p)) 0%nat H) as (H1 & H2 & H3).
  rewrite H1, H2, H3. rewrite with_idb_id. apply with_uploadedFiles_id.
Qed.

Lemma migrateLegacy_files e p :
  uploadedFiles (AppState (migrateLegacy e p)) =
  migratedFrom e 0 (uploadedFiles (AppState p)).
Proof.
  unfold migrateLegacy. rewrite migrateLoop_closed. simpl.
  destruct (anyFrom _ _ _); [|reflexivity].
  now rewrite saveToStorage_AppState.
Qed.

Lemma migrateLegacy_idb e p :
  idb (migrateLegacy e p) = idbFrom e 0 (uploadedFiles (AppState p)) (idb p).
Proof.
  unfold migrateLegacy. rewrite migrateLoop_closed. simpl.
  destruct (anyFrom _ _ _); [|reflexivity].
  now rewrite saveToStorage_idb.
Qed.

(** A key that no migrating entry is given keeps its blob. *)
Lemma idbFrom_other e (files : list FileInfo) :
  ∀ i0 d k,
    (∀ j g, files !! j = Some g → migrates e (i0 + j) g = true → fresh_id e (i0 + j) ≠ k) →
    idbFrom e i0 files d !! k = d !! k.
Proof.
  induction files as [|f files IH]; intros i0 d k H; simpl; [reflexivity|].
  rewrite IH.
  - destruct (legacyBlob f) as [blob|]; [|reflexivity].
    destruct (migrates e i0 f) eqn:Hm; [|reflexivity].
    apply lookup_insert_ne.
    specialize (H 0%nat f eq_refl). rewrite Nat.add_0_r in H. now apply H.
  - intros j g Hg Hm. specialize (H (S j) g Hg).
    rewrite Nat.add_succ_r in H. now apply H.
Qed.

(** A key that is present stays present. *)
Lemma idbFrom_is_Some e (files : list FileInfo) :
  ∀ i0 d k, is_Some (d !! k) → is_Some (idbFrom e i0 files d !! k).
Proof.
  induction files as [|f files IH]; intros i0 d k H; simpl; [exact H|].
  apply IH.
  destruct (legacyBlob f) as [blob|]; [|exact H].
  destruct (migrates e i0 f); [|exact H].
  rewrite lookup_insert_is_Some.
  destruct (decide (fresh_id e i0 = k)); [now left | now right].
Qed.

(** The blob of a migrating entry is stored under its fresh id; it is the
    blob found there at the end unless a later entry was given the same
    id. *)
Lemma idbFrom_stored e (files : list FileInfo) :
  ∀ i0 d j g blob,
    files !! j = Some g →
    migrates e (i0 + j) g = true →
    legacyBlob g = Some blob →
    is_Some (idbFrom e i0 files d !! fresh_id e (i0 + j)) ∧
    ((∀ k, (i0 + j < k)%nat → fresh_id e k ≠ fresh_id e (i0 + j)) →
     idbFrom e i0 files d !! fresh_id e (i0 + j) = Some blob).
Proof.
  induction files as [|f files IH]; intros i0 d j g blob Hg Hm Hb; [discriminate|].
  destruct j as [|j]; simpl in *.
  - injection Hg as ->. rewrite Nat.add_0_r in *. rewrite Hb, Hm. split.
    + apply idbFrom_is_Some. rewrite lookup_insert_eq. now eexists.
    + intros Hk. rewrite idbFrom_other.
      * apply lookup_insert_eq.
      * intros j' g' _ _. apply Hk. lia.
  - rewrite Nat.add_succ_r in *. apply (IH (S i0) _ j g blob Hg Hm Hb).
Qed.

Lemma metadata_reference_form f : file_data f = None → metadata f = f.
Proof. destruct f as [i n s t d]. simpl. now intros ->. Qed.


(** An entry without inline data is never migrated. *)
Lemma migrates_no_data e i f : truthy (file_data f) = false → migrates e i f = false.
Proof. unfold migrates. now intros ->. Qed.

(** ** C4: loading a second time *)

Lemma anyFrom_exists e (files : list FileInfo) :
  ∀ i0 i f, files !! i = Some f → migrates e (i0 + i) f = true →
            anyFrom e i0 files = true.
Proof.
  induction files as [|g files IH]; intros i0 i f Hf Hm; [discriminate|].
  simpl. destruct i as [|i]; simpl in Hf.
  - injection Hf as ->. rewrite Nat.add_0_r in Hm. now rewrite Hm.
  - rewrite Nat.add_succ_r in Hm. rewrite (IH (S i0) i f Hf Hm). apply orb_true_r.
Qed.

Lemma anyFrom_false e (files : list FileInfo) :
  ∀ i0, anyFrom e i0 files = false →
        ∀ j f, files !! j = Some f → migrates e (i0 + j) f = false.
Proof.
  induction files as [|g files IH]; intros i0 H j f Hf; [discriminate|].
  simpl in H. apply orb_false_iff in H as [Hg H].
  destruct j as [|j]; simpl in Hf.
  - injection Hf as <-. now rewrite Nat.add_0_r.
  - rewrite Nat.add_succ_r. now apply (IH (S i0)).
Qed.

Lemma map_metadata_no_data (files : list FileInfo) :
  Forall (λ f, file_data f = None) files → map metadata files = files.
Proof.
  induction 1 as [|f files Hf _ IH]; simpl; [reflexivity|].
  now rewrite metadata_reference_form, IH.
Qed.

Lemma map_metadata_clean (files : list FileInfo) :
  Forall (λ f, file_data f = None) (map metadata files).
Proof.
  apply Forall_forall. intros g Hg.
  apply list_elem_of_fmap in Hg as (g' & -> & _). reflexivity.
Qed.

(** When every entry that carries inline data is migrated, no entry of the
    migrated list carries inline data. *)
Lemma migratedFrom_no_data e (files : list FileInfo) :
  ∀ i0,
    (∀ j f, files !! j = Some f → is_Some (file_data f) → migrates e (i0 + j) f = true) →
    Forall (λ f, file_data f = None) (migratedFrom e i0 files).
Proof.
  induction files as [|g files IH]; intros i0 H; simpl; [constructor|].
  constructor.
  - unfold migrated. destruct (migrates e i0 g) eqn:Hm; [reflexivity|].
    destruct (file_data g) as [d|] eqn:Hd; [|reflexivity].
    specialize (H 0%nat g eq_refl). rewrite Nat.add_0_r, Hd, Hm in H.
    discriminate H. eauto.
  - apply IH. intros j f Hf Hd. specialize (H (S j) f Hf Hd).
    now rewrite Nat.add_succ_r in H.
Qed.

(** A load that finds no inline data only reads the snapshot. *)
Lemma loadFromStorage_plain e p d :
  localStorage p = Some (Parsed d) →
  Forall (λ f, file_data f = None) (default [] (snap_uploadedFiles d)) →
  loadFromStorage e p =
  with_AppState
    {| currentStep := currentStep (AppState p);
       formData := default ∅ (snap_formData d);
       uploadedFiles := default [] (snap_uploadedFiles d) |} p.
Proof.
  intros Hd Hnone. unfold loadFromStorage. rewrite Hd.
  apply migrateLegacy_none. intros j f Hf. apply migrates_no_data.
  simpl in Hf. rewrite Forall_forall in Hnone.
  rewrite (Hnone f); [reflexivity|]. eapply list_elem_of_lookup_2, Hf.
Qed.

(** A load whose migration migrates an entry and rewrites the snapshot,
    and the load that follows it. *)
Lemma loadFromStorage_after_migration e1 e2 p d :
  localStorage p = Some (Parsed d) →
  anyFrom e1 0 (default [] (snap_uploadedFiles d)) = true →
  isSubmitted p = false →
  setItem_ok (migrate_save e1) = true →
  uploadedFiles (AppState (loadFromStorage e1 p)) =
    migratedFrom e1 0 (default [] (snap_uploadedFiles d)) ∧
  loadFromStorage e2 (loadFromStorage e1 p) =
    with_uploadedFiles
      (map metadata (migratedFrom e1 0 (default [] (snap_uploadedFiles d))))
      (loadFromStorage e1 p).
Proof.
  intros Hd Hany Hs Hok.
  pose (snap := {| snap_formData := Some (default ∅ (snap_formData d));
                   snap_uploadedFiles :=
                     Some (map metadata
                             (migratedFrom e1 0 (default [] (snap_uploadedFiles d))));
                   snap_timestamp := Some (now (migrate_save e1)) |}).
  assert (Hl : loadFromStorage e1 p =
               with_localStorage (Some (Parsed snap))
                 (with_AppState
                    {| currentStep := currentStep (AppState p);
                       formData := default ∅ (snap_formData d);
                       uploadedFiles :=
                         migratedFrom e1 0 (default [] (snap_uploadedFiles d)) |}
                    (with_idb (idbFrom e1 0 (default [] (snap_uploadedFiles d)) (idb p)) p))).
  { unfold loadFromStorage. rewrite Hd. unfold migrateLegacy.
    rewrite migrateLoop_closed. simpl. rewrite Hany.
    unfold saveToStorage. simpl. rewrite Hs, Hok. reflexivity. }
  rewrite Hl. split; [reflexivity|].
  match goal with
  | |- loadFromStorage _ ?q = _ => rewrite (loadFromStorage_plain e2 q snap)
  end; [reflexivity | reflexivity | apply map_metadata_clean].
Qed.

(** C4 (as amended). The migration runs when the page loads, on the list
    read from [localStorage]; no other handler is taken to run while it
    waits for the blob store.  Loading a second time gives back the page
    of the first load unchanged (same descriptors, nothing decoded or
    stored again, same blob store, same stored snapshot) when the first
    load migrated every entry that carried inline data and, unless no
    entry carried any, rewrote the snapshot (claim not submitted, write
    done).  When the first load migrates one entry and rewrites the
    snapshot while another entry is not migrated, that entry stays as it
    was in memory, but every later load shows it without its inline data
    (and so never migrates it). *)
Theorem second_load_identity (e1 e2 : MigrateEnv) (p : Page) (d : Snapshot) :
  localStorage p = Some (Parsed d) →
  ((∀ i f, default [] (snap_uploadedFiles d) !! i = Some f →
           is_Some (file_data f) → migrates e1 i f = true) →
   Forall (λ f, file_data f = None) (default [] (snap_uploadedFiles d)) ∨
   (isSubmitted p = false ∧ setItem_ok (migrate_save e1) = true) →
   loadFromStorage e2 (loadFromStorage e1 p) = loadFromStorage e1 p) ∧
  (∀ i f j g,
     default [] (snap_uploadedFiles d) !! i = Some f → migrates e1 i f = true →
     isSubmitted p = false → setItem_ok (migrate_save e1) = true →
     default [] (snap_uploadedFiles d) !! j = Some g → migrates e1 j g = false →
     uploadedFiles (AppState (loadFromStorage e1 p)) !! j = Some g ∧
     uploadedFiles (AppState (loadFromStorage e2 (loadFromStorage e1 p))) !! j =
       Some (metadata g)).
Proof.
  intros Hd. split.
  - intros Hall Hwrite.
    destruct (anyFrom e1 0 (default [] (snap_uploadedFiles d))) eqn:Hany.
    + destruct Hwrite as [Hnone | [Hs Hok]].
      * exfalso. rewrite Forall_forall in Hnone.
        destruct (migratedFrom_none e1 (default [] (snap_uploadedFiles d)) 0%nat)
          as (_ & Hf & _); [|congruence].
        intros j f Hf. apply migrates_no_data. rewrite (Hnone f); [reflexivity|].
        eapply list_elem_of_lookup_2, Hf.
      * destruct (loadFromStorage_after_migration e1 e2 p d Hd Hany Hs Hok) as [Hm ->].
        rewrite map_metadata_no_data by (now apply migratedFrom_no_data).
        rewrite <- Hm. apply with_uploadedFiles_id.
    + assert (Hnone : Forall (λ f, file_data f = None) (default [] (snap_uploadedFiles d))).
      { apply Forall_forall. intros f Hf.
        apply list_elem_of_lookup in Hf as (j & Hj).
        destruct (file_data f) as [x|] eqn:Hx; [|reflexivity].
        pose proof (anyFrom_false e1 _ 0%nat Hany j f Hj) as Hn.
        change (0 + j)%nat with j in Hn.
        rewrite (Hall j f Hj) in Hn; [discriminate|]. rewrite Hx. eauto. }
      rewrite (loadFromStorage_plain e1 p d Hd Hnone).
      now erewrite loadFromStorage_plain.
  - intros i f j g Hf Hm Hs Hok Hg Hn.
    destruct (loadFromStorage_after_migration e1 e2 p d Hd
                (anyFrom_exists e1 _ 0%nat i f Hf Hm) Hs Hok) as [Hfiles ->].
    rewrite Hfiles. simpl. rewrite list_lookup_fmap, migratedFrom_lookup, Hg. simpl.
    unfold migrated. now rewrite Hn.
Qed.

(** ** C5: saving and loading again *)


(** ** C7: a failing entry does not stop the migration *)

(** C7. When the entry at index [i] is in legacy form and its decoding or
    its storing fails, [migrateLegacy] leaves that entry as it was, keeps
    the length of the list, and still migrates every other legacy entry
    that decodes and that the blob store accepts: such an entry is replaced
    by its reference form under a fresh id and its blob is stored under
    that id (it is the blob found there unless a later entry drew the same
    id). *)
Theorem migration_failure_isolated (e : MigrateEnv) (p : Page) (i : nat) (f : FileInfo) :
  uploadedFiles (AppState p) !! i = Some f →
  legacy f →
  legacyBlob f = None ∨ putFile_ok e i = false →
  uploadedFiles (AppState (migrateLegacy e p)) !! i = Some f ∧
  length (uploadedFiles (AppState (migrateLegacy e p))) =
    length (uploadedFiles (AppState p)) ∧
  ∀ j g blob,
    j ≠ i →
    uploadedFiles (AppState p) !! j = Some g →
    legacy g →
    legacyBlob g = Some blob →
    putFile_ok e j = true →
    uploadedFiles (AppState (migrateLegacy e p)) !! j =
      Some (referenceForm (fresh_id e j) g) ∧
    is_Some (idb (migrateLegacy e p) !! fresh_id e j) ∧
    ((∀ k, (j < k)%nat → fresh_id e k ≠ fresh_id e j) →
     idb (migrateLegacy e p) !! fresh_id e j = Some blob).
Proof.
  intros Hf Hl Hfail.
  rewrite migrateLegacy_files, migrateLegacy_idb, migratedFrom_length.
  split; [|split; [reflexivity|]].
  - rewrite migratedFrom_lookup, Hf. simpl. f_equal.
    unfold migrated, migrates. rewrite Hl. simpl.
    destruct Hfail as [-> | ->]; [reflexivity|].
    now destruct (legacyBlob f).
  - intros j g blob _ Hg Hlg Hb Hput.
    assert (Hm : migrates e j g = true).
    { unfold migrates. now rewrite Hlg, Hb, Hput. }
    split.
    + rewrite migratedFrom_lookup, Hg. simpl. unfold migrated. now rewrite Hm.
    + exact (idbFrom_stored e _ 0%nat (idb p) j g blob Hg Hm Hb).
Qed.

(** ** C1: an instance *)

Lemma submitted_never_writes_witness :
  isSubmitted stalePage = true ∧
  localStorage
    (run [EvSaveForm saveOk [("phone", FStr "+15551234567")];
          EvAutoSave saveOk; EvRemoveFile saveOk 0; EvSave saveOk] stalePage) =
  localStorage stalePage.
Proof.
  split; [reflexivity|].
  apply (submitted_never_writes stalePage saveOk). reflexivity.
Defined.

(** ** C2: what the bridge hands over *)

(** An accepted upload is kept in memory with its data URL, and that is
    the entry the bridge hands over. *)
Lemma accepted_upload_reaches_bridge now (file : File) (env : UploadEnv) (data : string) p :
  fst (validateFile file p) = true →
  readFileAsBase64 env = Some data →
  cd_uploadedFiles (getClaimData now (processFile p (file, env))) =
  uploadedFiles (AppState p) ++
  [{| file_id := None; file_name := f_name file; file_size := f_size file;
      file_type := f_type file; file_data := Some data |}].
Proof.
  intros Hv Hr. unfold getClaimData, processFile. simpl.
  rewrite Hv, Hr. simpl. rewrite saveToStorage_AppState. simpl.
  unfold validateFile in *.
  destruct (negb (includes allowedTypes (f_type file))); [discriminate|].
  destruct (f_size file >? maxFileSize); [discriminate|]. reflexivity.
Qed.

(** C2 (the claim as stated fails). After one accepted upload the body of
    the response to [/claim-data] holds a file entry with its inline data
    URL, that is, the encoded content of the file. *)
Lemma bridge_snapshot_has_inline_data :
  ∃ d f,
    onFetch "/claim-data" (MatchAllClients [pageClient clock 20 uploadedPage]) =
      Some {| status := 200; contentType := "application/json"; body := DataBody (Some d) |} ∧
    cd_uploadedFiles d !! 0%nat = Some f ∧
    file_data f = Some "data:application/pdf;base64,JVBERg==".
Proof. eexists _, _. repeat split; reflexivity. Qed.

(** C2 (as amended). The page answers a request of the worker with a
    [CLAIM_DATA_RESPONSE] whose data are the form-field map, the in-memory
    file list as it is, and a timestamp; when the answer arrives before the
    timeout, the worker responds with status 200 and these data.  So an
    entry of the snapshot carries inline data exactly when the in-memory
    entry does, and the snapshot is free of file content exactly when no
    in-memory entry carries inline data. *)
Theorem bridge_snapshot_is_memory (now : string) (t : N) (p : Page) :
  (t < timeout_ms)%N →
  onServiceWorkerMessage now (Some request) true p =
    Some {| bm_type := Some "CLAIM_DATA_RESPONSE";
            bm_data := Some {| cd_formData := formData (AppState p);
                               cd_uploadedFiles := uploadedFiles (AppState p);
                               cd_timestamp := now |} |} ∧
  onFetch "/claim-data" (MatchAllClients [pageClient now t p]) =
    Some {| status := 200; contentType := "application/json";
            body := DataBody (Some (getClaimData now p)) |} ∧
  (∀ i, file_data <$> cd_uploadedFiles (getClaimData now p) !! i =
        file_data <$> uploadedFiles (AppState p) !! i) ∧
  ((∀ f, f ∈ cd_uploadedFiles (getClaimData now p) → file_data f = None) ↔
   Forall (λ f, file_data f = None) (uploadedFiles (AppState p))).
Proof.
  intros Ht. split; [reflexivity|]. split.
  - unfold onFetch, claimDataResponse, responsePromise, pageClient. simpl.
    apply N.ltb_lt in Ht. now rewrite Ht.
  - split; [reflexivity|]. simpl. now rewrite Forall_forall.
Qed.

Lemma bridge_snapshot_is_memory_witness :
  (20 < timeout_ms)%N ∧
  onFetch "/claim-data" (MatchAllClients [pageClient clock 20 uploadedPage]) =
    Some {| status := 200; contentType := "application/json";
            body := DataBody (Some (getClaimData clock uploadedPage)) |}.
Proof.
  split; [reflexivity|].
  apply (bridge_snapshot_is_memory clock 20 uploadedPage). reflexivity.
Defined.

(** ** C3: what is written to [localStorage] *)

(** C3 (the claim as stated fails). After the signature is confirmed the
    snapshot in [localStorage] holds the PNG data URL of the signature among
    the form fields. *)
Lemma stored_snapshot_has_signature :
  ∃ d,
    localStorage (confirmSignature saveOk (Some signature) emptyPage) = Some (Parsed d) ∧
    holds_binary d.
Proof.
  eexists. split; [reflexivity|].
  right. exists "claimSignature", signature. split; reflexivity.
Qed.

(** C3 (as amended). [saveToStorage] writes, when the claim is not
    submitted and the write succeeds, a snapshot made of the form-field map
    as it is, the time, and one entry for each uploaded file, in order,
    with the id, name, size and type of the file and without its inline
    data; otherwise the stored text stays as it was.  The snapshot holds
    inline binary content exactly when a form field holds a data URL (as
    the confirmed signature does). *)
Theorem stored_snapshot_strips_file_data (e : SaveEnv) (p : Page) :
  localStorage (saveToStorage e p) =
    (if negb (isSubmitted p) && setItem_ok e
     then Some (Parsed (dataToSave e p)) else localStorage p) ∧
  snap_formData (dataToSave e p) = Some (formData (AppState p)) ∧
  snap_timestamp (dataToSave e p) = Some (now e) ∧
  (∃ l, snap_uploadedFiles (dataToSave e p) = Some l ∧
        length l = length (uploadedFiles (AppState p)) ∧
        ∀ i f, uploadedFiles (AppState p) !! i = Some f →
               ∃ g, l !! i = Some g ∧
                    file_id g = file_id f ∧ file_name g = file_name f ∧
                    file_size g = file_size f ∧ file_type g = file_type f ∧
                    file_data g = None) ∧
  (holds_binary (dataToSave e p) ↔
   ∃ k s, formData (AppState p) !! k = Some (FStr s) ∧ is_data_url s = true).
Proof.
  split; [apply saveToStorage_localStorage|].
  split; [reflexivity|]. split; [reflexivity|]. split.
  - eexists. split; [reflexivity|]. split; [apply length_map|].
    intros i f Hf. exists (metadata f). rewrite list_lookup_fmap, Hf.
    repeat split.
  - unfold holds_binary. simpl. split.
    + intros [(f & Hin & Hd) | H]; [|exact H].
      apply list_elem_of_fmap in Hin as (g & -> & _).
      destruct Hd as [x Hx]. discriminate.
    + intros H. now right.
Qed.

(** ** C6: removing a file *)

Lemma removeFile_files e index p :
  uploadedFiles (AppState (removeFile e index p)) =
  splice1 index (uploadedFiles (AppState p)).
Proof. unfold removeFile. simpl. now rewrite saveToStorage_AppState. Qed.

(** C6 (the claim as stated fails). [removeFile(-1)] is not a no-op: it
    removes the last entry. *)
Lemma removeFile_negative_index_removes :
  uploadedFiles (AppState (removeFile saveOk (-1) storedPage)) = [storedFileA] ∧
  uploadedFiles (AppState (removeFile saveOk (-1) storedPage)) ≠
    uploadedFiles (AppState storedPage).
Proof. split; [reflexivity | discriminate]. Qed.

(** C6 (as amended). With [0 <= index < length], [removeFile] removes
    exactly the entry at position [index] and the list gets shorter by one;
    with [index >= length] the list stays as it is; with a negative index
    the position is counted from the end of the list (and is the first
    position when the index is below [-length]), so an entry is removed
    whenever the list is not empty. *)
Theorem removeFile_by_position (e : SaveEnv) (index : Z) (p : Page) :
  let l := uploadedFiles (AppState p) in
  let l' := uploadedFiles (AppState (removeFile e index p)) in
  let len := Z.of_nat (length l) in
  (0 ≤ index < len →
   l' = take (Z.to_nat index) l ++ drop (S (Z.to_nat index)) l ∧
   Z.of_nat (length l') = len - 1) ∧
  (len ≤ index → l' = l) ∧
  (index < 0 →
   l' = take (Z.to_nat (Z.max (len + index) 0)) l ++
        drop (S (Z.to_nat (Z.max (len + index) 0))) l ∧
   (l ≠ [] → Z.of_nat (length l') = len - 1)).
Proof.
  intros l l' len. subst l'. rewrite removeFile_files. fold l.
  unfold splice1, splice_start. fold len. change (Z.max 1 0) with 1.
  assert (Hlen : 0 ≤ len) by (subst len; lia).
  split; [|split].
  - intros H. destruct (Z.ltb_spec index 0); [lia|]. split.
    + f_equal; f_equal; lia.
    + rewrite length_app, length_take, length_drop. subst len. lia.
  - intros H. destruct (Z.ltb_spec index 0); [lia|].
    rewrite take_ge, drop_ge by (subst len; lia). apply app_nil_r.
  - intros H. destruct (Z.ltb_spec index 0); [|lia].
    assert (Hs : l ≠ [] → Z.max (len + index) 0 < len).
    { intros Hne. destruct l; [congruence|]. subst len. simpl length. lia. }
    split.
    + destruct l as [|x l0]; [now rewrite !take_nil, !drop_nil|].
      specialize (Hs ltac:(discriminate)).
      f_equal; f_equal; lia.
    + intros Hne. specialize (Hs Hne).
      rewrite length_app, length_take, length_drop. subst len. lia.
Qed.

Lemma removeFile_by_position_witness :
  uploadedFiles (AppState (removeFile saveOk 0 storedPage)) = [storedFileB] ∧
  uploadedFiles (AppState (removeFile saveOk 2 storedPage)) = [storedFileA; storedFileB] ∧
  uploadedFiles (AppState (removeFile saveOk (-5) storedPage)) = [storedFileB].
Proof.
  destruct (removeFile_by_position saveOk 0 storedPage) as (H0 & _ & _).
  destruct (removeFile_by_position saveOk 2 storedPage) as (_ & H2 & _).
  destruct (removeFile_by_position saveOk (-5) storedPage) as (_ & _ & H5).
  split; [|split].
  - apply H0. change (0 ≤ 0 < 2). lia.
  - apply H2. change (2 ≤ 2). lia.
  - apply H5. lia.
Defined.

(** ** C4, C5, C7: instances *)

(** C4 (the claim as stated fails). The stored list holds two legacy
    entries and the blob store refuses the first: the first load migrates
    the second entry and rewrites the snapshot, so a second load shows the
    first entry without its inline data (and does not migrate it although
    the blob store now accepts it), and its output differs from that of
    the first load. *)
Lemma second_load_differs :
  uploadedFiles (AppState (loadFromStorage refusingFirst legacyStored)) !! 0%nat =
    Some legacyFile2 ∧
  uploadedFiles (AppState (loadFromStorage accepting
                             (loadFromStorage refusingFirst legacyStored))) !! 0%nat =
    Some (metadata legacyFile2) ∧
  loadFromStorage accepting (loadFromStorage refusingFirst legacyStored) ≠
    loadFromStorage refusingFirst legacyStored.
Proof.
  split; [reflexivity|]. split; [reflexivity|].
  intros H.
  apply (f_equal (λ q, file_data <$> uploadedFiles (AppState q) !! 0%nat)) in H.
  vm_compute in H. discriminate.
Qed.

Lemma second_load_identity_witness :
  loadFromStorage refusing (loadFromStorage accepting legacyStored) =
    loadFromStorage accepting legacyStored ∧
  uploadedFiles (AppState (loadFromStorage accepting
                             (loadFromStorage refusingFirst legacyStored))) !! 0%nat =
    Some (metadata legacyFile2).
Proof.
  split.
  - refine (proj1 (second_load_identity accepting refusing legacyStored _ eq_refl) _ _).
    + intros [|[|i]] f Hf _; simpl in Hf; try discriminate;
        injection Hf as <-; reflexivity.
    + right. split; reflexivity.
  - refine (proj2 (proj2 (second_load_identity refusingFirst accepting legacyStored _ eq_refl)
                     1%nat legacyFile 0%nat legacyFile2 _ _ _ _ _ _)); reflexivity.
Defined.




Lemma migration_failure_isolated_witness :
  uploadedFiles (AppState (migrateLegacy accepting legacyPage)) !! 0%nat = Some corruptFile ∧
  uploadedFiles (AppState (migrateLegacy accepting legacyPage)) !! 1%nat =
    Some (referenceForm "file-1700000000001-k3j2h1g" legacyFile).
Proof.
  destruct (migration_failure_isolated accepting legacyPage 0 corruptFile) as (H0 & _ & H).
  - reflexivity.
  - reflexivity.
  - left. reflexivity.
  - split; [exact H0|].
    refine (proj1 (H 1%nat legacyFile _ _ _ _ _ _)).
    + lia.
    + reflexivity.
    + reflexivity.
    + reflexivity.
    + reflexivity.
Defined.

(** ** C8: a file that fails validation *)

Lemma validateFile_rejects file p :
  includes allowedTypes (f_type file) = false ∨ f_size file > maxFileSize →
  ∃ text, validateFile file p = (false, showMessage text error p).
Proof.
  intros H. unfold validateFile.
  destruct (includes allowedTypes (f_type file)) eqn:Ht; simpl.
  - destruct H as [H|H]; [discriminate|].
    apply Z.gtb_gt in H. rewrite H. now eexists.
  - now eexists.
Qed.

(** [saveToStorage] reads no notification and only appends to them. *)
Lemma saveToStorage_with_messages e p :
  ∃ out,
    messages (saveToStorage e p) = messages p ++ out ∧
    ∀ ms, saveToStorage e (with_messages ms p) =
          with_messages (ms ++ out) (saveToStorage e p).
Proof.
  unfold saveToStorage. simpl.
  destruct (isSubmitted p) eqn:Hs.
  - exists []. split; [now rewrite app_nil_r|]. intros ms. now rewrite app_nil_r.
  - destruct (setItem_ok e).
    + exists []. split; [simpl; now rewrite app_nil_r|]. intros ms. now rewrite app_nil_r.
    + simpl. eexists. split; [reflexivity|]. intros ms. reflexivity.
Qed.

Lemma processFile_with_messages p fe :
  ∃ out,
    messages (processFile p fe) = messages p ++ out ∧
    ∀ ms, processFile (with_messages ms p) fe =
          with_messages (ms ++ out) (processFile p fe).
Proof.
  unfold processFile, validateFile.
  destruct (negb (includes allowedTypes (f_type (fst fe)))); simpl.
  { eexists. split; [reflexivity|]. intros ms. reflexivity. }
  destruct (f_size (fst fe) >? maxFileSize); simpl.
  { eexists. split; [reflexivity|]. intros ms. reflexivity. }
  destruct (readFileAsBase64 (snd fe)) as [fileData|].
  - set (fileInfo := {| file_id := None; file_name := f_name (fst fe);
                        file_size := f_size (fst fe); file_type := f_type (fst fe);
                        file_data := Some fileData |}).
    destruct (saveToStorage_with_messages (upload_save (snd fe))
                (with_uploadedFiles (uploadedFiles (AppState p) ++ [fileInfo]) p))
      as (out & Hout & Hms).
    eexists (out ++ [_]). split.
    + simpl. rewrite Hout. simpl. now rewrite app_assoc.
    + intros ms.
      change (with_uploadedFiles (uploadedFiles (AppState p) ++ [fileInfo])
                (with_messages ms p))
        with (with_messages ms
                (with_uploadedFiles (uploadedFiles (AppState p) ++ [fileInfo]) p)).
      rewrite Hms. unfold showMessage. simpl. now rewrite app_assoc.
  - eexists. split; [reflexivity|]. intros ms. reflexivity.
Qed.

Lemma processFiles_with_messages files :
  ∀ p, ∃ out,
    messages (processFiles files p) = messages p ++ out ∧
    ∀ ms, processFiles files (with_messages ms p) =
          with_messages (ms ++ out) (processFiles files p).
Proof.
  unfold processFiles.
  induction files as [|fe files IH]; intros p; simpl.
  - exists []. split; [now rewrite app_nil_r|]. intros ms. now rewrite app_nil_r.
  - destruct (processFile_with_messages p fe) as (out1 & H1 & Hms1).
    destruct (IH (processFile p fe)) as (out2 & H2 & Hms2).
    exists (out1 ++ out2). split.
    + now rewrite H2, H1, app_assoc.
    + intros ms. now rewrite Hms1, Hms2, app_assoc.
Qed.

(** C8. A file whose type is not in the allow-list, or whose size exceeds
    10 MB, is rejected by [processFiles]: its iteration only shows one
    error notification (the file list, the stored snapshot and the blob
    store stay as they are), and the outcome of the whole batch is the
    outcome of the batch without that file, with that one notification
    added at the place of the rejected file. *)
Theorem invalid_file_rejected (file : File) (env : UploadEnv)
    (before after : list (File * UploadEnv)) (p : Page) :
  includes allowedTypes (f_type file) = false ∨ f_size file > maxFileSize →
  ∃ text out,
    processFile (processFiles before p) (file, env) =
      showMessage text error (processFiles before p) ∧
    messages (processFiles (before ++ after) p) =
      messages (processFiles before p) ++ out ∧
    processFiles (before ++ (file, env) :: after) p =
      with_messages
        (messages (processFiles before p) ++ {| msg_text := text; msg_type := error |} :: out)
        (processFiles (before ++ after) p) ∧
    uploadedFiles (AppState (processFiles (before ++ (file, env) :: after) p)) =
      uploadedFiles (AppState (processFiles (before ++ after) p)) ∧
    localStorage (processFiles (before ++ (file, env) :: after) p) =
      localStorage (processFiles (before ++ after) p) ∧
    idb (processFiles (before ++ (file, env) :: after) p) =
      idb (processFiles (before ++ after) p).
Proof.
  intros H.
  set (q := processFiles before p).
  destruct (validateFile_rejects file q H) as (text & Hv).
  assert (Hstep : processFile q (file, env) = showMessage text error q).
  { unfold processFile. simpl. now rewrite Hv. }
  destruct (processFiles_with_messages after q) as (out & Hout & Hms).
  assert (Hwithout : processFiles (before ++ after) p = processFiles after q).
  { unfold processFiles, q. apply fold_left_app. }
  assert (Hwith : processFiles (before ++ (file, env) :: after) p =
                  with_messages (messages q ++ {| msg_text := text; msg_type := error |} :: out)
                    (processFiles after q)).
  { unfold processFiles at 1. rewrite fold_left_app. simpl.
    fold (processFiles before p). fold q. rewrite Hstep.
    fold (processFiles after (showMessage text error q)).
    unfold showMessage. rewrite Hms. now rewrite <- app_assoc. }
  exists text, out. rewrite Hwithout, Hwith.
  split; [exact Hstep|]. split; [exact Hout|]. repeat split.
Qed.

Lemma invalid_file_rejected_witness :
  uploadedFiles (AppState (processFiles [(sampleText, sampleRead); (samplePdf, sampleRead)] emptyPage)) =
    uploadedFiles (AppState (processFiles [(samplePdf, sampleRead)] emptyPage)) ∧
  uploadedFiles (AppState (processFiles [(samplePdf, sampleRead); (sampleHuge, sampleRead)] emptyPage)) =
    uploadedFiles (AppState (processFiles [(samplePdf, sampleRead)] emptyPage)).
Proof.
  split.
  - destruct (invalid_file_rejected sampleText sampleRead [] [(samplePdf, sampleRead)] emptyPage)
      as (text & out & _ & _ & _ & H & _).
    + left. reflexivity.
    + exact H.
  - destruct (invalid_file_rejected sampleHuge sampleRead [(samplePdf, sampleRead)] [] emptyPage)
      as (text & out & _ & _ & _ & H & _).
    + right. reflexivity.
    + exact H.
Defined.

(** ** C9: the worker answers every request *)

(** C9. A fetch of [/claim-data] always gets a response.  With no
    connected client the response has status 500 and the body
    [{error: "no-client"}]; when the first client sends nothing before the
    1500 ms timeout it has status 500 and the body [{error: "timeout"}];
    when the client's answer is not a [CLAIM_DATA_RESPONSE] it has status
    500 and the body [{error: "no-data"}]; and every response is either a
    200 with the data or a 500 with an [{error}] body. *)
Theorem claim_data_failures (client : Client) (rest : list Client) :
  timeout_ms = 1500%N ∧
  onFetch "/claim-data" (MatchAllClients []) =
    Some {| status := 500; contentType := "application/json";
            body := ErrorBody "no-client" |} ∧
  (reply client = None ∨ (∃ t d, reply client = Some (t, d) ∧ (timeout_ms ≤ t)%N) →
   onFetch "/claim-data" (MatchAllClients (client :: rest)) =
     Some {| status := 500; contentType := "application/json";
             body := ErrorBody "timeout" |}) ∧
  (∀ t d, reply client = Some (t, d) → (t < timeout_ms)%N →
          d = None ∨ (∃ m, d = Some m ∧ bm_type m ≠ Some "CLAIM_DATA_RESPONSE") →
          onFetch "/claim-data" (MatchAllClients (client :: rest)) =
            Some {| status := 500; contentType := "application/json";
                    body := ErrorBody "no-data" |}) ∧
  (∀ m, ∃ r, onFetch "/claim-data" m = Some r ∧
             ((status r = 200 ∧ ∃ d, body r = DataBody d) ∨
              (status r = 500 ∧ ∃ e, body r = ErrorBody e))).
Proof.
  split; [reflexivity|]. split; [reflexivity|]. split; [|split].
  - intros [H | (t & d & H & Ht)];
      unfold onFetch, claimDataResponse, responsePromise; simpl; rewrite H.
    + reflexivity.
    + apply N.ltb_ge in Ht. now rewrite Ht.
  - intros t d H Ht Hd.
    unfold onFetch, claimDataResponse, responsePromise; simpl; rewrite H.
    apply N.ltb_lt in Ht. rewrite Ht.
    destruct Hd as [-> | (m & -> & Hm)]; [reflexivity|].
    now rewrite bool_decide_eq_false_2.
  - intros m. unfold onFetch, claimDataResponse. simpl.
    destruct m as [e | [|c cs]].
    + eexists. split; [reflexivity|]. right. simpl. eauto.
    + eexists. split; [reflexivity|]. right. simpl. eauto.
    + destruct (responsePromise c) as [r | e] eqn:Hr.
      * eexists. split; [reflexivity|]. left.
        unfold responsePromise in Hr.
        destruct (reply c) as [[t [bm|]]|]; try destruct (t <? timeout_ms)%N;
          try destruct (bool_decide _); try discriminate.
        injection Hr as <-. simpl. eauto.
      * eexists. split; [reflexivity|]. right. simpl. eauto.
Qed.

Lemma claim_data_failures_witness :
  onFetch "/claim-data" (MatchAllClients [{| reply := None |}]) =
    Some (errorResponse "timeout") ∧
  onFetch "/claim-data" (MatchAllClients [{| reply := Some (1500%N, Some request) |}]) =
    Some (errorResponse "timeout") ∧
  onFetch "/claim-data" (MatchAllClients [{| reply := Some (3%N, Some request) |}]) =
    Some (errorResponse "no-data").
Proof.
  split; [|split].
  - destruct (claim_data_failures {| reply := None |} []) as (_ & _ & H & _).
    apply H. left. reflexivity.
  - destruct (claim_data_failures {| reply := Some (1500%N, Some request) |} [])
      as (_ & _ & H & _).
    apply H. right. exists 1500%N, (Some request). split; [reflexivity|].
    unfold timeout_ms. lia.
  - destruct (claim_data_failures {| reply := Some (3%N, Some request) |} [])
      as (_ & _ & _ & H & _).
    apply (H 3%N (Some request)); [reflexivity | reflexivity |].
    right. exists request. split; [reflexivity | discriminate].
Defined.

(** ** C10: exporting the uploaded files *)

Lemma exportFile_outcome baseFileName index file p :
  exportFile baseFileName index file p =
  match exportOutcome baseFileName index file with
  | inl d => with_downloads (downloads p ++ [d]) p
  | inr m => with_messages (messages p ++ [m]) p
  end.
Proof.
  unfold exportFile, exportOutcome, showMessage.
  destruct (file_data file) as [d|]; [|reflexivity].
  destruct (atob_arg _); reflexivity.
Qed.

Lemma exportFrom_closed baseFileName (files : list FileInfo) :
  ∀ index p,
    exportFrom baseFileName index files p =
    with_downloads (downloads p ++ omap downloadOf (outcomesFrom baseFileName index files))
      (with_messages (messages p ++ omap messageOf (outcomesFrom baseFileName index files)) p).
Proof.
  induction files as [|file files IH]; intros index p; simpl.
  - rewrite !app_nil_r. now destruct p.
  - rewrite IH, exportFile_outcome.
    destruct (exportOutcome baseFileName index file) as [d|m]; simpl.
    + now rewrite <- app_assoc.
    + now rewrite <- app_assoc.
Qed.

Lemma outcomesFrom_lookup baseFileName (files : list FileInfo) :
  ∀ index i,
    outcomesFrom baseFileName index files !! i =
    exportOutcome baseFileName (index + i) <$> files !! i.
Proof.
  induction files as [|f files IH]; intros index i; [reflexivity|].
  destruct i as [|i]; simpl.
  - now rewrite Nat.add_0_r.
  - rewrite IH. now rewrite Nat.add_succ_r.
Qed.

Lemma outcomesFrom_length baseFileName (files : list FileInfo) :
  ∀ index, length (outcomesFrom baseFileName index files) = length files.
Proof. induction files as [|f files IH]; intros index; simpl; [reflexivity|]. now rewrite IH. Qed.

Lemma exportOutcome_cases baseFileName index (f : FileInfo) :
  (file_data f = None →
   exportOutcome baseFileName index f =
     inr {| msg_text := "Failed to export file: " +:+ file_name f; msg_type := error |}) ∧
  (∀ d, file_data f = Some d → atob_arg (split "," d !! 1%nat) = None →
        exportOutcome baseFileName index f =
          inr {| msg_text := "Failed to export file: " +:+ file_name f;
                 msg_type := error |}) ∧
  (∀ d bytes, file_data f = Some d → atob_arg (split "," d !! 1%nat) = Some bytes →
        exportOutcome baseFileName index f =
          inl {| dl_name :=
                   default "undefined" baseFileName +:+ "_file" +:+ pretty (S index) +:+ "_"
                   +:+ sanitizeFileName
                         (replace_first ("." +:+ List.last (split "." (file_name f)) "") ""
                            (file_name f))
                   +:+ "." +:+ List.last (split "." (file_name f)) "";
                 dl_blob := {| blob_bytes := charCodes bytes;
                               blob_type := normalizeType (file_type f) |} |}) ∧
  (∀ dl, exportOutcome baseFileName index f = inl dl → is_Some (file_data f)).
Proof.
  unfold exportOutcome. repeat split.
  - now intros ->.
  - intros d -> Hb. now rewrite Hb.
  - intros d bytes -> Hb. now rewrite Hb.
  - intros dl. destruct (file_data f); [eauto | discriminate].
Qed.

(** C10. [exportUploadedFiles] handles every entry of the file list, in
    order and each one on its own: the entry at index [i] gives one
    outcome, which depends on that entry alone, and the downloads and the
    notifications of the export are those of the outcomes, in order.  An
    entry without inline data (the reference form) gives the notification
    that its export failed and no download, and so does an entry whose
    data does not decode; an entry whose data decodes gives the download
    of the decoded bytes, under the type of the file as the [Blob]
    constructor keeps it and under the name built from the base name, the
    position and the sanitized file name, whatever becomes of the other
    entries.  So a download is triggered only for an entry that carries
    inline data, and a failing entry does not stop the export of the
    others.  Nothing else on the page changes. *)
Theorem export_needs_inline_data (baseFileName : option string) (p : Page) :
  ∃ outcomes : list (Download + Message),
    length outcomes = length (uploadedFiles (AppState p)) ∧
    downloads (exportUploadedFiles baseFileName p) =
      downloads p ++ omap downloadOf outcomes ∧
    messages (exportUploadedFiles baseFileName p) =
      messages p ++ omap messageOf outcomes ∧
    AppState (exportUploadedFiles baseFileName p) = AppState p ∧
    localStorage (exportUploadedFiles baseFileName p) = localStorage p ∧
    idb (exportUploadedFiles baseFileName p) = idb p ∧
    ∀ i f,
      uploadedFiles (AppState p) !! i = Some f →
      (file_data f = None →
       outcomes !! i =
         Some (inr {| msg_text := "Failed to export file: " +:+ file_name f;
                      msg_type := error |})) ∧
      (∀ d, file_data f = Some d → atob_arg (split "," d !! 1%nat) = None →
            outcomes !! i =
              Some (inr {| msg_text := "Failed to export file: " +:+ file_name f;
                           msg_type := error |})) ∧
      (∀ d bytes,
         file_data f = Some d → atob_arg (split "," d !! 1%nat) = Some bytes →
         outcomes !! i =
           Some (inl {| dl_name :=
                          default "undefined" baseFileName +:+ "_file" +:+ pretty (S i)
                          +:+ "_"
                          +:+ sanitizeFileName
                                (replace_first
                                   ("." +:+ List.last (split "." (file_name f)) "") ""
                                   (file_name f))
                          +:+ "." +:+ List.last (split "." (file_name f)) "";
                        dl_blob := {| blob_bytes := charCodes bytes;
                                      blob_type := normalizeType (file_type f) |} |})) ∧
      (∀ dl, outcomes !! i = Some (inl dl) → is_Some (file_data f)).
Proof.
  exists (outcomesFrom baseFileName 0 (uploadedFiles (AppState p))).
  split; [apply outcomesFrom_length|].
  assert (Hx : exportUploadedFiles baseFileName p =
               exportFrom baseFileName 0 (uploadedFiles (AppState p)) p).
  { unfold exportUploadedFiles.
    destruct (uploadedFiles (AppState p)); reflexivity. }
  rewrite Hx, exportFrom_closed.
  split; [reflexivity|]. split; [reflexivity|]. split; [reflexivity|].
  split; [reflexivity|]. split; [reflexivity|].
  intros i f Hf. rewrite outcomesFrom_lookup, Hf. simpl.
  destruct (exportOutcome_cases baseFileName i f) as (H1 & H2 & H3 & H4).
  split; [|split; [|split]].
  - intros Hd. now rewrite H1.
  - intros d Hd Hb. now rewrite (H2 d).
  - intros d bytes Hd Hb. now rewrite (H3 d bytes).
  - intros dl [= Hdl]. now apply (H4 dl).
Qed.

(** A list with an entry in reference form between two entries whose data
    decodes: the first and the third are downloaded, the second fails. *)
Lemma export_needs_inline_data_witness :
  map dl_name
    (downloads (exportUploadedFiles (Some "claim")
                  (with_uploadedFiles [legacyFile2; storedFileA; legacyFile] emptyPage))) =
    ["claim_file1_first.png"; "claim_file3_scan.png"] ∧
  messages (exportUploadedFiles (Some "claim")
              (with_uploadedFiles [legacyFile2; storedFileA; legacyFile] emptyPage)) =
    [{| msg_text := "Failed to export file: a.pdf"; msg_type := error |}].
Proof.
  destruct (export_needs_inline_data (Some "claim")
              (with_uploadedFiles [legacyFile2; storedFileA; legacyFile] emptyPage))
    as (outcomes & Hlen & Hd & Hm & _ & _ & _ & H).
  destruct (H 0%nat legacyFile2 eq_refl) as (_ & _ & H0 & _).
  destruct (H 1%nat storedFileA eq_refl) as (H1 & _).
  destruct (H 2%nat legacyFile eq_refl) as (_ & _ & H2 & _).
  specialize (H0 _ _ eq_refl eq_refl). specialize (H1 eq_refl).
  specialize (H2 _ _ eq_refl eq_refl).
  destruct outcomes as [|o0 [|o1 [|o2 [|o3 outcomes]]]]; try discriminate Hlen.
  injection H0 as ->. injection H1 as ->. injection H2 as ->.
  rewrite Hd, Hm. split; reflexivity.
Defined.

(** * Further properties of the code *)

(** ** File names of the export *)

Lemma collapse_spaces_safe (l : list ascii) :
  ∀ in_run,
    Forall (λ c, is_unsafe_char c = false) l →
    Forall (λ c, is_unsafe_char c = false ∧ is_space c = false) (collapse_spaces in_run l).
Proof.
  induction l as [|c l IH]; intros in_run H; simpl; [constructor|].
  apply Forall_cons in H as [Hc Hl].
  destruct (is_space c) eqn:Hs.
  - destruct in_run; [now apply IH|].
    constructor; [now split | now apply IH].
  - constructor; [now split | now apply IH].
Qed.

Lemma collapse_spaces_fixed (l : list ascii) :
  ∀ in_run, Forall (λ c, is_space c = false) l → collapse_spaces in_run l = l.
Proof.
  induction l as [|c l IH]; intros in_run H; simpl; [reflexivity|].
  apply Forall_cons in H as [Hc Hl]. rewrite Hc. f_equal. now apply IH.
Qed.

Lemma replace_unsafe_safe (l : list ascii) :
  Forall (λ c, is_unsafe_char c = false)
    (map (λ c, if is_unsafe_char c then "_"%char else c) l).
Proof.
  induction l as [|c l IH]; simpl; constructor; [|exact IH].
  destruct (is_unsafe_char c) eqn:Hc; [reflexivity | exact Hc].
Qed.

Lemma replace_unsafe_fixed (l : list ascii) :
  Forall (λ c, is_unsafe_char c = false) l →
  map (λ c, if is_unsafe_char c then "_"%char else c) l = l.
Proof.
  induction 1 as [|c l Hc _ IH]; simpl; [reflexivity|]. now rewrite Hc, IH.
Qed.

Lemma sanitized_chars (fileName : string) :
  Forall (λ c, is_unsafe_char c = false ∧ is_space c = false)
    (list_ascii_of_string (sanitizeFileName fileName)).
Proof.
  unfold sanitizeFileName. rewrite list_ascii_of_string_of_list_ascii.
  apply collapse_spaces_safe, replace_unsafe_safe.
Qed.

(** X1. The result of [sanitizeFileName] holds none of the characters that
    are unsafe in a file name and no whitespace. *)
Theorem sanitizeFileName_safe (fileName : string) :
  Forall (λ c, is_unsafe_char c = false ∧ is_space c = false)
    (list_ascii_of_string (sanitizeFileName fileName)).
Proof. exact (sanitized_chars fileName). Qed.

(** X2. A name without unsafe characters and whitespace is left as it is by
    [sanitizeFileName]; so sanitizing twice is the same as sanitizing
    once. *)
Theorem sanitizeFileName_idempotent (fileName : string) :
  (Forall (λ c, is_unsafe_char c = false ∧ is_space c = false)
     (list_ascii_of_string fileName) →
   sanitizeFileName fileName = fileName) ∧
  sanitizeFileName (sanitizeFileName fileName) = sanitizeFileName fileName.
Proof.
  assert (Hfix : ∀ s, Forall (λ c, is_unsafe_char c = false ∧ is_space c = false)
                        (list_ascii_of_string s) → sanitizeFileName s = s).
  { intros s H. unfold sanitizeFileName.
    rewrite replace_unsafe_fixed by (eapply Forall_impl; [exact H | now intros c [? ?]]).
    rewrite collapse_spaces_fixed by (eapply Forall_impl; [exact H | now intros c [? ?]]).
    apply string_of_list_ascii_of_string. }
  split; [apply Hfix|]. apply Hfix, sanitized_chars.
Qed.

Lemma sanitizeFileName_idempotent_witness :
  sanitizeFileName "claim_2024-01-01" = "claim_2024-01-01".
Proof.
  apply (proj1 (sanitizeFileName_idempotent "claim_2024-01-01")).
  repeat constructor.
Defined.

(** ** Bank card numbers *)

Lemma removeSpaces_cons c l :
  removeSpaces (c :: l) = if is_space c then removeSpaces l else c :: removeSpaces l.
Proof.
  unfold removeSpaces. rewrite filter_cons.
  destruct (is_space c); case_decide; congruence.
Qed.

Lemma removeSpaces_app l1 l2 :
  removeSpaces (l1 ++ l2) = removeSpaces l1 ++ removeSpaces l2.
Proof. apply filter_app. Qed.

Lemma removeSpaces_rev l : removeSpaces (rev l) = rev (removeSpaces l).
Proof.
  induction l as [|c l IH]; [reflexivity|]. simpl.
  rewrite removeSpaces_app, IH, !removeSpaces_cons.
  destruct (is_space c); simpl; [now rewrite app_nil_r | reflexivity].
Qed.

Lemma removeSpaces_trimStart l : removeSpaces (trimStart l) = removeSpaces l.
Proof.
  induction l as [|c l IH]; [reflexivity|]. simpl.
  destruct (is_space c) eqn:Hc; [|reflexivity].
  now rewrite IH, removeSpaces_cons, Hc.
Qed.

Lemma removeSpaces_trim l : removeSpaces (trim l) = removeSpaces l.
Proof.
  unfold trim.
  now rewrite removeSpaces_rev, removeSpaces_trimStart, removeSpaces_rev,
    rev_involutive, removeSpaces_trimStart.
Qed.

Lemma removeSpaces_group4_bounded n :
  ∀ l, (length l ≤ n)%nat → removeSpaces (group4 l) = removeSpaces l.
Proof.
  induction n as [|n IH]; intros l Hn.
  - destruct l; [reflexivity | simpl in Hn; lia].
  - destruct l as [|a [|b [|c [|d r]]]]; try reflexivity.
    simpl group4. rewrite !removeSpaces_cons.
    change (is_space " ") with true. cbv iota.
    rewrite IH by (simpl in Hn; lia).
    reflexivity.
Qed.

Lemma removeSpaces_group4 l : removeSpaces (group4 l) = removeSpaces l.
Proof. now apply (removeSpaces_group4_bounded (length l)). Qed.

Lemma removeSpaces_clean l : Forall (λ c, is_space c = false) (removeSpaces l).
Proof.
  induction l as [|c l IH]; [constructor|]. rewrite removeSpaces_cons.
  destruct (is_space c) eqn:Hc; [exact IH | now constructor].
Qed.

Lemma removeSpaces_fixed l : Forall (λ c, is_space c = false) l → removeSpaces l = l.
Proof.
  induction 1 as [|c l Hc _ IH]; [reflexivity|].
  now rewrite removeSpaces_cons, Hc, IH.
Qed.

Lemma removeSpaces_formatBankCard (value : string) :
  removeSpaces (list_ascii_of_string (formatBankCard value)) =
  removeSpaces (list_ascii_of_string value).
Proof.
  unfold formatBankCard. rewrite list_ascii_of_string_of_list_ascii.
  rewrite removeSpaces_trim, removeSpaces_group4.
  apply removeSpaces_fixed, removeSpaces_clean.
Qed.

(** X3. [formatBankCard] only moves whitespace: with the whitespace
    removed, its result is its argument with the whitespace removed, so no
    character of the number is lost, added or reordered. *)
Theorem formatBankCard_keeps_digits (value : string) :
  removeSpaces (list_ascii_of_string (formatBankCard value)) =
  removeSpaces (list_ascii_of_string value).
Proof. exact (removeSpaces_formatBankCard value). Qed.

(** X4. [formatBankCard] is idempotent: formatting a formatted number gives
    it back (the [input] handler can run again on its own output). *)
Theorem formatBankCard_idempotent (value : string) :
  formatBankCard (formatBankCard value) = formatBankCard value.
Proof.
  unfold formatBankCard at 1.
  now rewrite removeSpaces_formatBankCard.
Qed.

Lemma trimStart_clean l : Forall (λ c, is_space c = false) l → trimStart l = l.
Proof. destruct 1 as [|c l Hc _]; [reflexivity|]. simpl. now rewrite Hc. Qed.

Lemma trimStart_app (u w : list ascii) :
  trimStart u ≠ [] → trimStart (u ++ w) = trimStart u ++ w.
Proof.
  induction u as [|c u IH]; intros H; [now contradict H|]. simpl in *.
  destruct (is_space c); [now apply IH | reflexivity].
Qed.

(** Trailing whitespace is dropped behind a prefix when something is left
    of what follows the prefix. *)
Lemma trimEnd_app (pre y : list ascii) :
  rev (trimStart (rev y)) ≠ [] →
  rev (trimStart (rev (pre ++ y))) = pre ++ rev (trimStart (rev y)).
Proof.
  intros H. rewrite rev_app_distr, trimStart_app.
  - now rewrite rev_app_distr, rev_involutive.
  - intros E. apply H. now rewrite E.
Qed.

Lemma spaced_nil l : spaced l = [] → l = [].
Proof. destruct l as [|a [|b [|c [|d [|x r]]]]]; simpl; congruence. Qed.

Lemma trimEnd_group4_bounded n :
  ∀ l, (length l ≤ n)%nat → Forall (λ c, is_space c = false) l →
       rev (trimStart (rev (group4 l))) = spaced l.
Proof.
  induction n as [|n IH]; intros l Hn Hl.
  - destruct l; [reflexivity | simpl in Hn; lia].
  - assert (Hsmall : group4 l = l → spaced l = l →
                     rev (trimStart (rev (group4 l))) = spaced l).
    { intros -> ->. rewrite trimStart_clean; [apply rev_involutive|].
      apply Forall_forall. intros c Hc. rewrite Forall_forall in Hl. apply Hl.
      apply list_elem_of_In, in_rev. now apply list_elem_of_In in Hc. }
    destruct l as [|a [|b [|c [|d r]]]]; try (now apply Hsmall).
    destruct r as [|x r].
    + apply Forall_cons in Hl as [_ Hl]. apply Forall_cons in Hl as [_ Hl].
      apply Forall_cons in Hl as [_ Hl]. apply Forall_cons in Hl as [Hd _].
      cbn [group4 spaced rev app trimStart].
      change (is_space " ") with true. cbv iota.
      cbn [trimStart]. rewrite Hd. reflexivity.
    + change (group4 (a :: b :: c :: d :: x :: r))
        with ([a; b; c; d; " "%char] ++ group4 (x :: r)).
      change (spaced (a :: b :: c :: d :: x :: r))
        with ([a; b; c; d; " "%char] ++ spaced (x :: r)).
      assert (Hr : rev (trimStart (rev (group4 (x :: r)))) = spaced (x :: r)).
      { apply IH; [simpl in *; lia|].
        do 4 (apply Forall_cons in Hl as [_ Hl]). exact Hl. }
      rewrite trimEnd_app; [now rewrite Hr|].
      rewrite Hr. intros E. apply spaced_nil in E. discriminate.
Qed.

(** X5. The result of [formatBankCard] is its argument without whitespace,
    cut into groups of four characters with exactly one space between two
    groups and none at either end. *)
Theorem formatBankCard_groups (value : string) :
  formatBankCard value =
  string_of_list_ascii (spaced (removeSpaces (list_ascii_of_string value))).
Proof.
  unfold formatBankCard, trim. f_equal.
  set (x := removeSpaces (list_ascii_of_string value)).
  assert (Hx : Forall (λ c, is_space c = false) x) by apply removeSpaces_clean.
  assert (Hs : trimStart (group4 x) = group4 x).
  { destruct x as [|a [|b [|c [|d r]]]]; try (now apply trimStart_clean).
    apply Forall_cons in Hx as [Ha _]. simpl. now rewrite Ha. }
  rewrite Hs. now apply (trimEnd_group4_bounded (length x)).
Qed.

(** ** Phone numbers *)

Lemma nonzero_digit_is_digit c : is_nonzero_digit c = true → is_digit c = true.
Proof.
  unfold is_nonzero_digit, is_digit. intros H.
  apply andb_true_iff in H as [H1 H2]. apply andb_true_iff. split; [|exact H2].
  apply N.leb_le in H1. apply N.leb_le. lia.
Qed.

Lemma digits_between_spec lo hi l :
  digits_between lo hi l = true ↔
  forallb is_digit l = true ∧ (lo ≤ length l ≤ hi)%nat.
Proof.
  unfold digits_between. rewrite !andb_true_iff, !Nat.leb_le. tauto.
Qed.

Lemma national_is_numeric l : pattern_national l = true → pattern_numeric l = true.
Proof.
  unfold pattern_national, pattern_numeric.
  destruct l as [|d r]; [discriminate|].
  rewrite andb_true_iff, !digits_between_spec. intros [Hd [Hr Hlen]].
  simpl. rewrite (nonzero_digit_is_digit d Hd), Hr. simpl. split; [reflexivity | lia].
Qed.

(** X6. A phone number that [isValidInternationalPhone] accepts consists,
    once whitespace, dashes and parentheses are removed, either of a plus
    sign followed by 7 to 15 digits, or of 7 to 17 digits. *)
Theorem valid_phone_shape (phone : string) :
  isValidInternationalPhone phone = true →
  (∃ r, cleanPhone phone = "+"%char :: r ∧
        forallb is_digit r = true ∧ (7 ≤ length r ≤ 15)%nat) ∨
  (forallb is_digit (cleanPhone phone) = true ∧
   (7 ≤ length (cleanPhone phone) ≤ 17)%nat).
Proof.
  unfold isValidInternationalPhone. simpl. rewrite orb_false_r.
  rewrite !orb_true_iff. intros [H | [H | [H | H]]].
  - left. unfold pattern_plus in H.
    destruct (cleanPhone phone) as [|c [|d r]]; try discriminate.
    rewrite !andb_true_iff, digits_between_spec in H.
    destruct H as [[Hc Hd] [Hr Hlen]].
    apply Ascii.eqb_eq in Hc as ->. exists (d :: r). split; [reflexivity|].
    simpl. rewrite (nonzero_digit_is_digit d Hd), Hr. split; [reflexivity | lia].
  - right. unfold pattern_00 in H.
    destruct (cleanPhone phone) as [|a [|b [|d r]]]; try discriminate.
    rewrite !andb_true_iff, digits_between_spec in H.
    destruct H as [[[Ha Hb] Hd] [Hr Hlen]].
    apply Ascii.eqb_eq in Ha as ->. apply Ascii.eqb_eq in Hb as ->.
    simpl. rewrite (nonzero_digit_is_digit d Hd), Hr. split; [reflexivity | lia].
  - right. apply national_is_numeric in H. unfold pattern_numeric in H.
    apply digits_between_spec in H as [Hd Hlen]. split; [exact Hd | lia].
  - right. unfold pattern_numeric in H.
    apply digits_between_spec in H as [Hd Hlen]. split; [exact Hd | lia].
Qed.

Lemma valid_phone_shape_witness :
  ∃ r, cleanPhone "+1 (555) 123-4567" = "+"%char :: r ∧
       forallb is_digit r = true ∧ (7 ≤ length r ≤ 15)%nat.
Proof.
  destruct (valid_phone_shape "+1 (555) 123-4567") as [H | [H _]].
  - reflexivity.
  - exact H.
  - discriminate H.
Defined.

(** X7. The third pattern of [isValidInternationalPhone] (the national
    format) never decides: a number is accepted exactly when it matches the
    pattern with the plus sign, the pattern with the prefix 00, or the plain
    pattern of 7 to 15 digits. *)
Theorem valid_phone_patterns (phone : string) :
  isValidInternationalPhone phone =
  pattern_plus (cleanPhone phone) || pattern_00 (cleanPhone phone) ||
  pattern_numeric (cleanPhone phone).
Proof.
  unfold isValidInternationalPhone. simpl. rewrite orb_false_r.
  destruct (pattern_plus (cleanPhone phone)); [reflexivity|].
  destruct (pattern_00 (cleanPhone phone)); [reflexivity|]. simpl.
  destruct (pattern_national (cleanPhone phone)) eqn:H; [|reflexivity].
  simpl. symmetry. now apply national_is_numeric.
Qed.

(** ** Validation of the form *)

Lemma required_nil m key message :
  required m key message = [] ↔ truthyValue (m !! key) = true.
Proof. unfold required. destruct (truthyValue (m !! key)); split; congruence. Qed.

Lemma phoneErrors_nil v missing invalid :
  phoneErrors v missing invalid = Some [] ↔
  ∃ s, v = Some (FStr s) ∧ isValidInternationalPhone s = true.
Proof.
  unfold phoneErrors. split.
  - destruct v as [[s|[|]]|]; try discriminate.
    destruct (String.eqb s ""); [discriminate|].
    destruct (isValidInternationalPhone s) eqn:Hv; [|discriminate].
    intros _. now exists s.
  - intros (s & -> & Hv). rewrite Hv.
    destruct (String.eqb s "") eqn:Hs; [|reflexivity].
    apply String.eqb_eq in Hs. subst s. discriminate Hv.
Qed.

Lemma validateStep1_passes p :
  validateStep1 p = Some [] ↔
  truthyValue (formData (AppState p) !! "insured-name") = true ∧
  truthyValue (formData (AppState p) !! "id-number") = true ∧
  (∃ s, formData (AppState p) !! "phone" = Some (FStr s) ∧
        isValidInternationalPhone s = true) ∧
  truthyValue (formData (AppState p) !! "accident-time") = true ∧
  truthyValue (formData (AppState p) !! "accident-situation") = true ∧
  truthyValue (formData (AppState p) !! "agreement") = true.
Proof.
  unfold validateStep1.
  rewrite <- (phoneErrors_nil (formData (AppState p) !! "phone") "Please enter phone number"
             "Please enter a valid international phone number (e.g., +1234567890)").
  rewrite <- !required_nil.
  destruct (phoneErrors _ _ _) as [phone|]; split.
  - intros [= H]. repeat (apply app_eq_nil in H as [? H]). subst. repeat split; eassumption.
  - intros (H1 & H2 & H3 & H4 & H5 & H6). injection H3 as ->.
    now rewrite H1, H2, H4, H5, H6.
  - discriminate.
  - intros (_ & _ & H & _). discriminate.
Qed.

(** X8. [validateStep1] reports no error exactly when the insured name, the
    id number, the incident time and the incident situation are filled in,
    the agreement is ticked, and the phone field holds text that
    [isValidInternationalPhone] accepts. *)
Theorem validateStep1_no_error (p : Page) :
  validateStep1 p = Some [] ↔
  truthyValue (formData (AppState p) !! "insured-name") = true ∧
  truthyValue (formData (AppState p) !! "id-number") = true ∧
  (∃ s, formData (AppState p) !! "phone" = Some (FStr s) ∧
        isValidInternationalPhone s = true) ∧
  truthyValue (formData (AppState p) !! "accident-time") = true ∧
  truthyValue (formData (AppState p) !! "accident-situation") = true ∧
  truthyValue (formData (AppState p) !! "agreement") = true.
Proof. exact (validateStep1_passes p). Qed.

(** ** Collecting the answers of the form *)

Lemma collect_keeps (inputs : list (string * FormValue)) :
  ∀ (m : gmap string FormValue) k,
    is_Some (m !! k) →
    is_Some (fold_left
               (λ m kv, match snd kv with
                        | FBool _ => <[fst kv := snd kv]> m
                        | FStr s => if String.eqb s "" then m else <[fst kv := snd kv]> m
                        end) inputs m !! k).
Proof.
  induction inputs as [|[k' v] inputs IH]; intros m k H; simpl; [exact H|].
  apply IH. destruct v as [s|b]; [destruct (String.eqb s "")|]; try exact H.
  - rewrite lookup_insert_is_Some. destruct (decide (k' = k)); [now left | now right].
  - rewrite lookup_insert_is_Some. destruct (decide (k' = k)); [now left | now right].
Qed.

Lemma collect_skips_empty (inputs : list (string * FormValue)) :
  ∀ (m : gmap string FormValue) k,
    (∀ v, (k, v) ∈ inputs → v = FStr "") →
    fold_left
      (λ m kv, match snd kv with
               | FBool _ => <[fst kv := snd kv]> m
               | FStr s => if String.eqb s "" then m else <[fst kv := snd kv]> m
               end) inputs m !! k = m !! k.
Proof.
  induction inputs as [|[k' v] inputs IH]; intros m k H; simpl; [reflexivity|].
  rewrite IH by (intros v' Hv'; apply H; now right).
  destruct (decide (k' = k)) as [->|Hne].
  - rewrite (H v) by now left. reflexivity.
  - destruct v as [s|b]; [destruct (String.eqb s "")|]; try reflexivity;
      now apply lookup_insert_ne.
Qed.

(** X9. [collectFormData] never removes an answer: a field that has an
    answer keeps one; and a field whose inputs are all empty text keeps the
    answer it had, so emptying a text input does not clear what was
    collected before. *)
Theorem collectFormData_keeps_answers (inputs : list (string * FormValue)) (p : Page)
    (k : string) :
  (is_Some (formData (AppState p) !! k) →
   is_Some (formData (AppState (collectFormData inputs p)) !! k)) ∧
  ((∀ v, (k, v) ∈ inputs → v = FStr "") →
   formData (AppState (collectFormData inputs p)) !! k = formData (AppState p) !! k).
Proof.
  split; intros H.
  - exact (collect_keeps inputs _ k H).
  - exact (collect_skips_empty inputs _ k H).
Qed.

Lemma collectFormData_keeps_answers_witness :
  formData (AppState (collectFormData [("phone", FStr "")]
    (collectFormData [("phone", FStr "+15551234567")] emptyPage))) !! "phone" =
  Some (FStr "+15551234567").
Proof.
  destruct (collectFormData_keeps_answers [("phone", FStr "")]
              (collectFormData [("phone", FStr "+15551234567")] emptyPage) "phone")
    as [_ H].
  rewrite H; [reflexivity|].
  intros v Hv. apply list_elem_of_singleton in Hv. congruence.
Defined.

(** ** Steps of the form *)

Lemma showValidationErrors_AppState errors p :
  AppState (snd (showValidationErrors errors p)) = AppState p.
Proof. unfold showValidationErrors. now destruct (0 <? length errors)%nat. Qed.

Lemma showValidationErrors_localStorage errors p :
  localStorage (snd (showValidationErrors errors p)) = localStorage p.
Proof. unfold showValidationErrors. now destruct (0 <? length errors)%nat. Qed.

Lemma showValidationErrors_passes errors p :
  fst (showValidationErrors errors p) = true ↔ errors = [].
Proof.
  unfold showValidationErrors. destruct errors; simpl; split; congruence.
Qed.

Lemma proceed_currentStep e p :
  currentStep (AppState (proceed e p)) = currentStep (AppState p) + 1.
Proof. unfold proceed. simpl. now rewrite saveToStorage_AppState. Qed.

Lemma nextStep_cases e inputs p :
  let q := collectFormData inputs p in
  (currentStep (AppState (nextStep e inputs p)) = currentStep (AppState p) ∧
   localStorage (nextStep e inputs p) = localStorage p) ∨
  (currentStep (AppState (nextStep e inputs p)) = currentStep (AppState p) + 1 ∧
   ((currentStep (AppState p) = 1 ∧ validateStep1 q = Some []) ∨
    (currentStep (AppState p) = 2 ∧ validateStep2 q = Some []) ∨
    (currentStep (AppState p) ≠ 1 ∧ currentStep (AppState p) ≠ 2 ∧
     currentStep (AppState p) < maxSteps))).
Proof.
  intros q. unfold nextStep. fold q.
  assert (Hq : currentStep (AppState q) = currentStep (AppState p)) by reflexivity.
  assert (Hl : localStorage q = localStorage p) by reflexivity.
  rewrite Hq.
  destruct (Z.eqb_spec (currentStep (AppState p)) 1) as [H1|H1].
  - destruct (validateStep1 q) as [errors|] eqn:Hval; [|now left].
    destruct (fst (showValidationErrors errors q)) eqn:Hv; cbn [negb].
    + right. apply showValidationErrors_passes in Hv. subst errors.
      rewrite proceed_currentStep, showValidationErrors_AppState, Hq. tauto.
    + left. now rewrite showValidationErrors_AppState, showValidationErrors_localStorage.
  - destruct (Z.eqb_spec (currentStep (AppState p)) 2) as [H2|H2].
    + destruct (validateStep2 q) as [errors|] eqn:Hval; [|now left].
      destruct (fst (showValidationErrors errors q)) eqn:Hv; cbn [negb].
      * apply showValidationErrors_passes in Hv. subst errors.
        rewrite showValidationErrors_AppState, Hq.
        destruct (Z.ltb_spec (currentStep (AppState p)) maxSteps).
        -- right. rewrite proceed_currentStep, showValidationErrors_AppState, Hq. tauto.
        -- left. now rewrite showValidationErrors_AppState, showValidationErrors_localStorage.
      * left. now rewrite showValidationErrors_AppState, showValidationErrors_localStorage.
    + cbn [fst snd negb]. rewrite Hq.
      destruct (Z.ltb_spec (currentStep (AppState p)) maxSteps).
      * right. rewrite proceed_currentStep, Hq. tauto.
      * now left.
Qed.

(** X10. [nextStep] and [prevStep] keep the step within the three steps of
    the form: from a step between 1 and [maxSteps] they lead to a step
    between 1 and [maxSteps]. *)
Theorem steps_stay_in_range (e : SaveEnv) (inputs : list (string * FormValue)) (p : Page) :
  step_in_range p →
  step_in_range (nextStep e inputs p) ∧ step_in_range (prevStep p).
Proof.
  unfold step_in_range, maxSteps. intros H. split.
  - destruct (nextStep_cases e inputs p) as [[-> _] | [-> Hc]]; [exact H|].
    unfold maxSteps in Hc. lia.
  - unfold prevStep. destruct (Z.gtb_spec (currentStep (AppState p)) 1); simpl; lia.
Qed.

Lemma steps_stay_in_range_witness :
  step_in_range (nextStep saveOk completeInputs emptyPage) ∧
  step_in_range (prevStep emptyPage).
Proof.
  apply (steps_stay_in_range saveOk completeInputs emptyPage).
  unfold step_in_range. simpl. unfold maxSteps. lia.
Defined.

(** X11. [nextStep] does not leave step 1 unless [validateStep1] reports no
    error on the collected answers, nor step 2 unless [validateStep2]
    reports none; when it is held back, the step and the stored snapshot
    stay as they were. *)
Theorem nextStep_needs_validation (e : SaveEnv) (inputs : list (string * FormValue))
    (p : Page) :
  (currentStep (AppState p) = 1 ∧ validateStep1 (collectFormData inputs p) ≠ Some []) ∨
  (currentStep (AppState p) = 2 ∧ validateStep2 (collectFormData inputs p) ≠ Some []) →
  currentStep (AppState (nextStep e inputs p)) = currentStep (AppState p) ∧
  localStorage (nextStep e inputs p) = localStorage p.
Proof.
  intros H.
  destruct (nextStep_cases e inputs p) as [Hsame | [_ Hc]]; [exact Hsame|].
  exfalso. destruct H as [[H1 Hv] | [H2 Hv]];
    destruct Hc as [[? ?] | [[? ?] | (? & ? & ?)]]; congruence || lia.
Qed.

Lemma nextStep_needs_validation_witness :
  currentStep (AppState (nextStep saveOk [("phone", FStr "12")] emptyPage)) = 1 ∧
  localStorage (nextStep saveOk [("phone", FStr "12")] emptyPage) = None.
Proof.
  apply (nextStep_needs_validation saveOk [("phone", FStr "12")] emptyPage).
  left. split; [reflexivity|]. vm_compute. discriminate.
Defined.

(** ** Submission *)

Lemma submitClaim_cases inputs p :
  let q := collectFormData inputs p in
  (validateStep1 q = Some [] ∧ validateStep2 q = Some [] ∧
   uploadedFiles (AppState p) ≠ [] ∧
   submitClaim inputs p =
     markSubmitted (exportToFile_started
                      (showMessage "Submitting insurance claim..." info q))) ∨
  (¬ (validateStep1 q = Some [] ∧ validateStep2 q = Some [] ∧
      uploadedFiles (AppState p) ≠ []) ∧
   isSubmitted (submitClaim inputs p) = isSubmitted p ∧
   autoSaveInterval (submitClaim inputs p) = autoSaveInterval p ∧
   AppState (submitClaim inputs p) = AppState q ∧
   localStorage (submitClaim inputs p) = localStorage p).
Proof.
  intros q. unfold submitClaim. fold q.
  destruct (validateStep1 q) as [e1|] eqn:H1;
    [|right; split; [intros (? & _); discriminate | now repeat split]].
  destruct (validateStep2 q) as [e2|] eqn:H2;
    [|right; split; [intros (_ & ? & _); discriminate | now repeat split]].
  destruct (fst (showValidationErrors (e1 ++ e2) q)) eqn:Hv; cbn [negb].
  - apply showValidationErrors_passes in Hv. apply app_eq_nil in Hv as [-> ->].
    change (uploadedFiles (AppState q)) with (uploadedFiles (AppState p)).
    destruct (uploadedFiles (AppState p)) as [|f files] eqn:Hf; simpl.
    + right. split; [intros (_ & _ & ?); congruence | now repeat split].
    + left. now repeat split.
  - right. split.
    + intros ([= ->] & [= ->] & _). simpl in Hv. discriminate.
    + unfold showValidationErrors. destruct (0 <? length (e1 ++ e2))%nat; now repeat split.
Qed.

(** X12. [submitClaim] marks the claim as submitted exactly when both
    validations report no error on the collected answers and at least one
    file is uploaded; in every case it writes nothing to [localStorage] and
    leaves the file list as it is. *)
Theorem submitClaim_gate (inputs : list (string * FormValue)) (p : Page) :
  isSubmitted p = false →
  (isSubmitted (submitClaim inputs p) = true ↔
   validateStep1 (collectFormData inputs p) = Some [] ∧
   validateStep2 (collectFormData inputs p) = Some [] ∧
   uploadedFiles (AppState p) ≠ []) ∧
  localStorage (submitClaim inputs p) = localStorage p ∧
  uploadedFiles (AppState (submitClaim inputs p)) = uploadedFiles (AppState p).
Proof.
  intros Hs.
  destruct (submitClaim_cases inputs p) as [(H1 & H2 & Hf & ->) | (Hn & Hi & _ & Ha & Hl)].
  - repeat split; auto.
  - rewrite Hi, Ha, Hl. split; [|now split]. split.
    + intros H. congruence.
    + intros H. now contradict Hn.
Qed.

Lemma submitClaim_gate_witness :
  isSubmitted (submitClaim completeInputs uploadedPage) = true ∧
  isSubmitted (submitClaim completeInputs emptyPage) = false.
Proof.
  split.
  - destruct (submitClaim_gate completeInputs uploadedPage) as [[_ H] _]; [reflexivity|].
    apply H. split; [reflexivity|]. split; [reflexivity | discriminate].
  - destruct (submitClaim_gate completeInputs emptyPage) as [H _]; [reflexivity|].
    destruct (isSubmitted (submitClaim completeInputs emptyPage)); [|reflexivity].
    destruct H as [H _]. destruct (H eq_refl) as (_ & _ & Hf). now contradict Hf.
Defined.

(** X14. After [clearStorage] the page is empty and submitted, loading
    finds nothing, and whatever entry points run afterwards, nothing is
    stored under the storage key again. *)
Theorem clearStorage_final (p : Page) (me : MigrateEnv) (events : list Event) :
  formData (AppState (clearStorage p)) = ∅ ∧
  uploadedFiles (AppState (clearStorage p)) = [] ∧
  loadFromStorage me (clearStorage p) = clearStorage p ∧
  isSubmitted (run events (clearStorage p)) = true ∧
  localStorage (run events (clearStorage p)) = None.
Proof.
  split; [reflexivity|]. split; [reflexivity|]. split; [reflexivity|].
  exact (run_frozen events (clearStorage p) eq_refl).
Qed.

(** ** Uploads *)

Lemma saveToStorage_downloads e p : downloads (saveToStorage e p) = downloads p.
Proof. save_cases e p; reflexivity. Qed.

Lemma saveToStorage_isSubmitted e p : isSubmitted (saveToStorage e p) = isSubmitted p.
Proof. save_cases e p; congruence. Qed.

Lemma processFile_files p fe :
  uploadedFiles (AppState (processFile p fe)) =
  uploadedFiles (AppState p) ++ option_list (accepted fe).
Proof.
  unfold processFile, validateFile, accepted.
  destruct (includes allowedTypes (f_type (fst fe))); simpl;
    [|now rewrite app_nil_r].
  destruct (f_size (fst fe) >? maxFileSize); simpl; [now rewrite app_nil_r|].
  destruct (readFileAsBase64 (snd fe)); simpl; [|now rewrite app_nil_r].
  now rewrite saveToStorage_AppState.
Qed.

Lemma processFile_untouched p fe :
  idb (processFile p fe) = idb p ∧
  downloads (processFile p fe) = downloads p ∧
  formData (AppState (processFile p fe)) = formData (AppState p) ∧
  isSubmitted (processFile p fe) = isSubmitted p.
Proof.
  unfold processFile, validateFile.
  destruct (negb (includes allowedTypes (f_type (fst fe)))); simpl; [now repeat split|].
  destruct (f_size (fst fe) >? maxFileSize); simpl; [now repeat split|].
  destruct (readFileAsBase64 (snd fe)); simpl; [|now repeat split].
  rewrite saveToStorage_AppState, saveToStorage_idb, saveToStorage_downloads,
    saveToStorage_isSubmitted.
  now repeat split.
Qed.

Lemma processFiles_closed (files : list (File * UploadEnv)) :
  ∀ p,
    uploadedFiles (AppState (processFiles files p)) =
      uploadedFiles (AppState p) ++ omap accepted files ∧
    idb (processFiles files p) = idb p ∧
    downloads (processFiles files p) = downloads p ∧
    formData (AppState (processFiles files p)) = formData (AppState p) ∧
    isSubmitted (processFiles files p) = isSubmitted p.
Proof.
  unfold processFiles.
  induction files as [|fe files IH]; intros p; simpl.
  - now rewrite app_nil_r.
  - destruct (IH (processFile p fe)) as (H1 & H2 & H3 & H4 & H5).
    destruct (processFile_untouched p fe) as (U2 & U3 & U4 & U5).
    rewrite H1, H2, H3, H4, H5, processFile_files, U2, U3, U4, U5.
    repeat split. rewrite <- app_assoc. f_equal.
    now destruct (accepted fe).
Qed.

Lemma omap_accepted_length (files : list (File * UploadEnv)) :
  (length (omap accepted files) ≤ length files)%nat.
Proof.
  induction files as [|fe l IH]; [reflexivity|].
  change (omap accepted (fe :: l))
    with (match accepted fe with
          | Some f => f :: omap accepted l
          | None => omap accepted l
          end).
  destruct (accepted fe); simpl length; lia.
Qed.

(** X15. [processFiles] appends to the file list, in the order of the
    batch, one entry for every file that passes validation and is read, and
    nothing else; each such entry has no id and carries the data URL; the
    earlier entries, the form answers and the blob store are untouched (no
    upload is put into IndexedDB). *)
Theorem processFiles_appends (files : list (File * UploadEnv)) (p : Page) :
  uploadedFiles (AppState (processFiles files p)) =
    uploadedFiles (AppState p) ++ omap accepted files ∧
  Forall (λ f, file_id f = None ∧ is_Some (file_data f)) (omap accepted files) ∧
  (length (omap accepted files) ≤ length files)%nat ∧
  idb (processFiles files p) = idb p ∧
  formData (AppState (processFiles files p)) = formData (AppState p).
Proof.
  destruct (processFiles_closed files p) as (H1 & H2 & _ & H4 & _).
  split; [exact H1|]. split; [|split; [|now split]].
  - apply Forall_forall. intros f Hf.
    apply list_elem_of_omap in Hf as (fe & _ & Hacc).
    unfold accepted in Hacc.
    destruct (includes _ _ && _); [|discriminate].
    destruct (readFileAsBase64 (snd fe)); [|discriminate].
    injection Hacc as <-. simpl. eauto.
  - apply omap_accepted_length.
Qed.

(** ** The blob store *)

Lemma handle_idb p ev id :
  is_Some (idb p !! id) → is_Some (idb (handle p ev) !! id).
Proof.
  intros H. destruct ev as [e|e|e inputs|e fieldId|e canvas|files|e index|e]; simpl.
  - now rewrite saveToStorage_idb.
  - unfold autoSave. destruct (negb (isSubmitted p)); [now rewrite saveToStorage_idb | exact H].
  - now rewrite saveToStorage_idb.
  - unfold clearField. now rewrite saveToStorage_idb.
  - unfold confirmSignature. destruct canvas; [|exact H].
    simpl. now rewrite saveToStorage_idb.
  - destruct (processFiles_closed files p) as (_ & -> & _). exact H.
  - now rewrite saveToStorage_idb.
  - rewrite migrateLegacy_idb. now apply idbFrom_is_Some.
Qed.

(** X16. No entry point deletes from the blob store: a file that
    [getFile] finds is still found after any sequence of saves, timer
    ticks, form changes, uploads, removals of files and migrations (so the
    blob of a removed file stays behind). *)
Theorem blob_store_only_grows (events : list Event) (p : Page) (id : string) :
  is_Some (getFile id p) → is_Some (getFile id (run events p)).
Proof.
  unfold getFile, run. revert p.
  induction events as [|ev events IH]; intros p H; simpl; [exact H|].
  apply IH. now apply handle_idb.
Qed.

Lemma blob_store_only_grows_witness :
  is_Some (getFile "file-1700000000001-k3j2h1g"
             (run [EvRemoveFile saveOk 1; EvSave saveOk]
                (migrateLegacy accepting legacyPage))).
Proof.
  apply (blob_store_only_grows _ (migrateLegacy accepting legacyPage)).
  vm_compute. eauto.
Defined.

Lemma migrates_decodes e i f :
  migrates e i f = true → legacy f ∧ ∃ blob, legacyBlob f = Some blob.
Proof.
  unfold migrates, legacy. intros H. apply andb_true_iff in H as [Ht Hb].
  split; [exact Ht|]. destruct (legacyBlob f); [eauto | discriminate].
Qed.

Lemma splice1_subset {A} index (l : list A) x : x ∈ splice1 index l → x ∈ l.
Proof.
  unfold splice1. rewrite elem_of_app. intros [H | H].
  - eapply subseteq_take, H.
  - eapply subseteq_drop, H.
Qed.

Lemma resolvable_step p q :
  (∀ id, is_Some (idb p !! id) → is_Some (idb q !! id)) →
  (∀ f, f ∈ uploadedFiles (AppState q) →
        f ∈ uploadedFiles (AppState p) ∨ file_id f = None ∨
        ∃ id, file_id f = Some id ∧ is_Some (idb q !! id)) →
  resolvable p → resolvable q.
Proof.
  intros Hidb Hfiles Hp f id Hf Hid. unfold getFile.
  destruct (Hfiles f Hf) as [Hold | [Hnone | (id' & Hid' & Hs)]].
  - apply Hidb. exact (Hp f id Hold Hid).
  - congruence.
  - congruence.
Qed.

Lemma handle_resolvable p ev : resolvable p → resolvable (handle p ev).
Proof.
  apply resolvable_step; [intros id; apply handle_idb|].
  intros f. destruct ev as [e|e|e inputs|e fieldId|e canvas|files|e index|e]; simpl.
  - rewrite saveToStorage_AppState. now left.
  - unfold autoSave. destruct (negb (isSubmitted p));
      [rewrite saveToStorage_AppState|]; now left.
  - rewrite saveToStorage_AppState. now left.
  - unfold clearField. rewrite saveToStorage_AppState. now left.
  - unfold confirmSignature. destruct canvas; [|now left].
    simpl. rewrite saveToStorage_AppState. now left.
  - destruct (processFiles_closed files p) as (-> & _).
    rewrite elem_of_app. intros [H | H]; [now left|]. right. left.
    apply list_elem_of_omap in H as (fe & _ & Hacc). unfold accepted in Hacc.
    destruct (includes _ _ && _); [|discriminate].
    destruct (readFileAsBase64 (snd fe)); [|discriminate].
    now injection Hacc as <-.
  - rewrite saveToStorage_AppState. simpl. intros H. left.
    now apply splice1_subset in H.
  - rewrite migrateLegacy_files, migrateLegacy_idb. intros H.
    apply list_elem_of_lookup in H as (i & Hi).
    rewrite migratedFrom_lookup in Hi. simpl in Hi.
    destruct (uploadedFiles (AppState p) !! i) as [g|] eqn:Hg; [|discriminate].
    injection Hi as <-. unfold migrated.
    destruct (migrates e i g) eqn:Hm.
    + right. right. exists (fresh_id e i). split; [reflexivity|].
      destruct (migrates_decodes e i g Hm) as (_ & blob & Hb).
      exact (proj1 (idbFrom_stored e _ 0%nat (idb p) i g blob Hg Hm Hb)).
    + left. eapply list_elem_of_lookup_2, Hg.
Qed.

(** X17. Every entry point keeps the link between the file list and the
    blob store: if every id in the file list resolves through [getFile],
    this still holds after any sequence of saves, timer ticks, form
    changes, uploads, removals of files and migrations. *)
Theorem ids_stay_resolvable (events : list Event) (p : Page) :
  resolvable p → resolvable (run events p).
Proof.
  unfold run. revert p.
  induction events as [|ev events IH]; intros p H; simpl; [exact H|].
  apply IH. now apply handle_resolvable.
Qed.

Lemma ids_stay_resolvable_witness :
  resolvable (run [EvMigrate accepting; EvProcessFiles [(samplePdf, sampleRead)];
                   EvRemoveFile saveOk 0] legacyPage).
Proof.
  apply (ids_stay_resolvable _ legacyPage).
  intros f id Hf Hid. simpl in Hf.
  apply elem_of_cons in Hf as [-> | Hf]; [discriminate|].
  apply list_elem_of_singleton in Hf as ->. discriminate.
Defined.

(** ** Migration and the stored snapshot *)

(** X19. When [migrateLegacy] migrates at least one entry on a page that is
    not submitted and the write succeeds, the snapshot it stores has one
    entry per file and no inline data at all: an entry whose migration
    failed stays in legacy form in memory but is stored without its data
    (and without a new id). *)
Theorem migrateLegacy_stores_no_data (e : MigrateEnv) (p : Page) (i : nat) (f : FileInfo) :
  uploadedFiles (AppState p) !! i = Some f →
  migrates e i f = true →
  isSubmitted p = false →
  setItem_ok (migrate_save e) = true →
  ∃ l,
    localStorage (migrateLegacy e p) =
      Some (Parsed {| snap_formData := Some (formData (AppState p));
                      snap_uploadedFiles := Some l;
                      snap_timestamp := Some (now (migrate_save e)) |}) ∧
    length l = length (uploadedFiles (AppState p)) ∧
    Forall (λ g, file_data g = None) l ∧
    ∀ j g, uploadedFiles (AppState p) !! j = Some g → migrates e j g = false →
           uploadedFiles (AppState (migrateLegacy e p)) !! j = Some g ∧
           l !! j = Some (metadata g).
Proof.
  intros Hf Hm Hs Hok.
  exists (map metadata (migratedFrom e 0 (uploadedFiles (AppState p)))).
  split; [|split; [|split]].
  - unfold migrateLegacy. rewrite migrateLoop_closed. simpl.
    rewrite (anyFrom_exists e _ 0%nat i f Hf Hm).
    unfold saveToStorage. simpl. rewrite Hs, Hok. reflexivity.
  - now rewrite length_map, migratedFrom_length.
  - apply Forall_forall. intros g Hg.
    apply list_elem_of_fmap in Hg as (g' & -> & _). reflexivity.
  - intros j g Hg Hn.
    rewrite migrateLegacy_files, list_lookup_fmap, migratedFrom_lookup, Hg. simpl.
    unfold migrated. now rewrite Hn.
Qed.

Lemma migrateLegacy_stores_no_data_witness :
  ∃ l,
    localStorage (migrateLegacy accepting legacyPage) =
      Some (Parsed {| snap_formData := Some ∅; snap_uploadedFiles := Some l;
                      snap_timestamp := Some clock |}) ∧
    uploadedFiles (AppState (migrateLegacy accepting legacyPage)) !! 0%nat =
      Some corruptFile ∧
    l !! 0%nat = Some (metadata corruptFile).
Proof.
  destruct (migrateLegacy_stores_no_data accepting legacyPage 1 legacyFile)
    as (l & Hl & _ & _ & H); [reflexivity | reflexivity | reflexivity | reflexivity |].
  exists l. split; [exact Hl|].
  apply (H 0%nat corruptFile); reflexivity.
Defined.

(** ** Export *)

Lemma omap_step {A B} (f : A → option B) x l :
  omap f (x :: l) = match f x with Some y => y :: omap f l | None => omap f l end.
Proof. reflexivity. Qed.

Lemma outcomes_without_data baseFileName (files : list FileInfo) :
  ∀ index,
    Forall (λ f, file_data f = None) files →
    omap downloadOf (outcomesFrom baseFileName index files) = [] ∧
    omap messageOf (outcomesFrom baseFileName index files) =
      map (λ f, {| msg_text := "Failed to export file: " +:+ file_name f;
                   msg_type := error |}) files.
Proof.
  induction files as [|f files IH]; intros index H; [now split|].
  apply Forall_cons in H as [Hf H]. destruct (IH (S index) H) as [H1 H2].
  assert (Ho : exportOutcome baseFileName index f =
               inr {| msg_text := "Failed to export file: " +:+ file_name f;
                      msg_type := error |}).
  { unfold exportOutcome. now rewrite Hf. }
  cbn [outcomesFrom]. rewrite !omap_step, Ho. cbn [downloadOf messageOf map].
  now rewrite H1, H2.
Qed.

Lemma exportUploadedFiles_closed baseFileName p :
  exportUploadedFiles baseFileName p =
  with_downloads
    (downloads p ++ omap downloadOf (outcomesFrom baseFileName 0 (uploadedFiles (AppState p))))
    (with_messages
       (messages p ++ omap messageOf (outcomesFrom baseFileName 0 (uploadedFiles (AppState p))))
       p).
Proof.
  rewrite <- exportFrom_closed. unfold exportUploadedFiles.
  now destruct (uploadedFiles (AppState p)).
Qed.

(** X20. The content of uploaded files does not survive a reload: after
    [saveToStorage] (not submitted, write done) and [loadFromStorage], the
    file list holds the same files without their inline data, and
    [exportUploadedFiles] then triggers no download at all and shows one
    failure notification per file. *)
Theorem reload_loses_file_content (e : SaveEnv) (me : MigrateEnv)
    (baseName : option string) (p : Page) :
  isSubmitted p = false →
  setItem_ok e = true →
  uploadedFiles (AppState (loadFromStorage me (saveToStorage e p))) =
    map metadata (uploadedFiles (AppState p)) ∧
  downloads (exportUploadedFiles baseName (loadFromStorage me (saveToStorage e p))) =
    downloads p ∧
  messages (exportUploadedFiles baseName (loadFromStorage me (saveToStorage e p))) =
    messages p ++
    map (λ f, {| msg_text := "Failed to export file: " +:+ file_name f; msg_type := error |})
        (uploadedFiles (AppState p)).
Proof.
  intros Hs Hok.
  assert (Hnone : Forall (λ f, file_data f = None)
                    (map metadata (uploadedFiles (AppState p)))).
  { apply Forall_forall. intros g Hg.
    apply list_elem_of_fmap in Hg as (g' & -> & _). reflexivity. }
  assert (Hload : loadFromStorage me (saveToStorage e p) =
                  with_AppState
                    {| currentStep := currentStep (AppState p);
                       formData := formData (AppState p);
                       uploadedFiles := map metadata (uploadedFiles (AppState p)) |}
                    (with_localStorage (Some (Parsed (dataToSave e p))) p)).
  { unfold saveToStorage. rewrite Hs, Hok. unfold loadFromStorage. simpl.
    apply migrateLegacy_none. intros j f Hf. apply migrates_no_data.
    simpl in Hf. rewrite Forall_forall in Hnone.
    rewrite (Hnone f); [reflexivity|]. eapply list_elem_of_lookup_2, Hf. }
  rewrite Hload, exportUploadedFiles_closed. simpl.
  destruct (outcomes_without_data baseName _ 0%nat Hnone) as [-> ->].
  rewrite app_nil_r. split; [reflexivity|]. split; [reflexivity|].
  f_equal. rewrite map_map. reflexivity.
Qed.

Lemma reload_loses_file_content_witness :
  downloads (exportUploadedFiles None uploadedPage) ≠ [] ∧
  downloads (exportUploadedFiles None
               (loadFromStorage accepting (saveToStorage saveOk uploadedPage))) = [].
Proof.
  split; [discriminate|].
  apply (reload_loses_file_content saveOk accepting None uploadedPage); reflexivity.
Defined.

Lemma outcomes_decodable baseFileName (files : list FileInfo) :
  ∀ index,
    Forall (λ f, ∃ d bytes, file_data f = Some d ∧
                            atob_arg (split "," d !! 1%nat) = Some bytes) files →
    omap messageOf (outcomesFrom baseFileName index files) = [] ∧
    length (omap downloadOf (outcomesFrom baseFileName index files)) = length files ∧
    ∀ j f d bytes,
      files !! j = Some f → file_data f = Some d →
      atob_arg (split "," d !! 1%nat) = Some bytes →
      ∃ dl, omap downloadOf (outcomesFrom baseFileName index files) !! j = Some dl ∧
            dl_blob dl = {| blob_bytes := charCodes bytes;
                            blob_type := normalizeType (file_type f) |}.
Proof.
  induction files as [|f files IH]; intros index H.
  - repeat split. intros j f d bytes Hj. discriminate.
  - apply Forall_cons in H as [(d & bytes & Hd & Hb) H].
    destruct (IH (S index) H) as (H1 & H2 & H3).
    assert (Ho : ∃ dl, exportOutcome baseFileName index f = inl dl ∧
                       dl_blob dl = {| blob_bytes := charCodes bytes;
                                       blob_type := normalizeType (file_type f) |}).
    { unfold exportOutcome. rewrite Hd, Hb. eexists. split; reflexivity. }
    destruct Ho as (dl & Ho & Hdl).
    cbn [outcomesFrom]. rewrite !omap_step, Ho. cbn [downloadOf messageOf].
    split; [exact H1|]. split; [simpl; now rewrite H2|].
    intros j g d' bytes' Hj Hd' Hb'. destruct j as [|j]; simpl in Hj.
    + injection Hj as <-. exists dl. split; [reflexivity|].
      rewrite Hdl. congruence.
    + exact (H3 j g d' bytes' Hj Hd' Hb').
Qed.

(** X21. When every entry of the file list carries a data URL whose
    payload decodes, [exportUploadedFiles] triggers exactly one download
    per file, in the order of the list, shows no failure, and the download
    of a file holds the decoded bytes of its data URL under the type of the
    file as the [Blob] constructor keeps it (in lower case, or empty when
    the type has a character outside U+0020 to U+007E). *)
Theorem export_of_decodable_files (baseName : option string) (p : Page) :
  Forall (λ f, ∃ d bytes, file_data f = Some d ∧
                          atob_arg (split "," d !! 1%nat) = Some bytes)
    (uploadedFiles (AppState p)) →
  ∃ dls,
    downloads (exportUploadedFiles baseName p) = downloads p ++ dls ∧
    length dls = length (uploadedFiles (AppState p)) ∧
    messages (exportUploadedFiles baseName p) = messages p ∧
    ∀ j f d bytes,
      uploadedFiles (AppState p) !! j = Some f → file_data f = Some d →
      atob_arg (split "," d !! 1%nat) = Some bytes →
      ∃ dl, dls !! j = Some dl ∧
            dl_blob dl = {| blob_bytes := charCodes bytes;
                            blob_type := normalizeType (file_type f) |}.
Proof.
  intros H.
  destruct (outcomes_decodable baseName _ 0%nat H) as (H1 & H2 & H3).
  exists (omap downloadOf (outcomesFrom baseName 0 (uploadedFiles (AppState p)))).
  rewrite exportUploadedFiles_closed. simpl. rewrite H1.
  split; [reflexivity|]. split; [exact H2|]. split; [apply app_nil_r | exact H3].
Qed.

Lemma export_of_decodable_files_witness :
  ∃ dls,
    downloads (exportUploadedFiles None uploadedPage) = dls ∧ length dls = 1%nat.
Proof.
  destruct (export_of_decodable_files None uploadedPage) as (dls & Hd & Hl & _).
  - repeat constructor. eexists _, _. split; reflexivity.
  - exists dls. split; [exact Hd | exact Hl].
Defined.

(** X22. The two decoders of a data URL agree: whenever the export of an
    entry succeeds, the conversion used by the migration succeeds on that
    entry as well and gives a blob with the same bytes as the download
    (and the same type, unless the type of the entry is empty). *)
Theorem export_and_migration_decode_alike (baseName : option string) (index : nat)
    (f : FileInfo) (dl : Download) :
  exportOutcome baseName index f = inl dl →
  ∃ blob, legacyBlob f = Some blob ∧
          blob_bytes blob = blob_bytes (dl_blob dl) ∧
          (file_type f ≠ "" → blob_type blob = blob_type (dl_blob dl)).
Proof.
  unfold exportOutcome, legacyBlob, atob_arg.
  destruct (file_data f) as [d|]; [|discriminate]. simpl.
  destruct (split "," d !! 1%nat) as [s|] eqn:Hs; simpl.
  - destruct (atob s) as [bytes|]; [|discriminate].
    intros [= <-]. eexists. split; [reflexivity|]. simpl. split; [reflexivity|].
    intros Ht. destruct (String.eqb (file_type f) "") eqn:E; [|reflexivity].
    apply String.eqb_eq in E. contradiction.
  - change (atob "undefined") with (@None string). discriminate.
Qed.

Lemma export_and_migration_decode_alike_witness :
  ∃ blob, legacyBlob legacyFile = Some blob ∧ blob_bytes blob = [137; 80; 78; 71]%N.
Proof.
  destruct (export_and_migration_decode_alike None 0 legacyFile
              {| dl_name := "undefined_file1_scan.png";
                 dl_blob := {| blob_bytes := [137; 80; 78; 71]%N;
                               blob_type := "image/png" |} |})
    as (blob & Hb & Hbytes & _); [reflexivity|].
  exists blob. split; [exact Hb | exact Hbytes].
Defined.

(** X23. [exportToFile] tells the user that data and files were exported
    before any file is handled and whatever becomes of the files: the
    success notification comes first, then one download or one failure
    notification per file; and the exported document lists every file by
    name, marked [dataRemoved], whether or not its content could be
    exported. *)
Theorem exportToFile_reports_success (e : ExportEnv) (p : Page) :
  ∃ outcomes : list (Download + Message),
    length outcomes = length (uploadedFiles (AppState p)) ∧
    messages (exportToFile e p) =
      messages p ++
      {| msg_text := "Data and files exported successfully"; msg_type := success |}
        :: omap messageOf outcomes ∧
    downloads (exportToFile e p) = downloads p ++ omap downloadOf outcomes ∧
    map ex_name (doc_uploadedFiles (dataToExport e p)) =
      map file_name (uploadedFiles (AppState p)) ∧
    Forall (λ x, ex_dataRemoved x = true) (doc_uploadedFiles (dataToExport e p)).
Proof.
  exists (outcomesFrom (Some (baseFileName e)) 0 (uploadedFiles (AppState p))).
  split; [apply outcomesFrom_length|].
  unfold exportToFile. rewrite exportUploadedFiles_closed. simpl.
  split; [now rewrite <- app_assoc|]. split; [reflexivity|]. split.
  - now rewrite map_map.
  - apply Forall_forall. intros x Hx.
    apply list_elem_of_fmap in Hx as (f & -> & _). reflexivity.
Qed.
